(** * torch_audiomentations.utils.io : the [Audio] reader

    A shallow embedding of [src/torch_audiomentations/utils/io.py]:
    descriptor validation ([is_valid]), projected length
    ([get_num_samples]), power normalisation ([rms_normalize]), the
    downmix / resample engine ([downmix_and_resample]) and the windowed
    read ([Audio.__call__]).

    Python integers are [Z]; Python floats are IEEE binary64 values
    ([spec_float] at precision 53); a tensor is its shape together with
    its elements in row-major order; exceptions are the [Raise] side of
    an error monad; [torchaudio.info], [torchaudio.load] and
    [librosa.core.resample] are collaborators the reader is
    parameterised by. *)

From Stdlib Require Import String ZArith List Bool Lia Arith.
From Stdlib Require Import SpecFloat.
From Stdlib Require Reals Lra.
Import ListNotations.

Local Open Scope string_scope.
Local Open Scope Z_scope.

(** ** Exceptions and the error monad *)

Inductive Exception : Type :=
| ValueError (msg : string)
| IndexError
| KeyError
| ZeroDivisionError
| OverflowError
| RuntimeError
| CollaboratorError (code : nat).

Inductive result (T : Type) : Type :=
| Ok (v : T)
| Raise (e : Exception).

Arguments Ok {T} v.
Arguments Raise {T} e.

Definition bind {T U : Type} (c : result T) (k : T -> result U) : result U :=
  match c with
  | Ok v => k v
  | Raise e => Raise e
  end.

Notation "x <- c ;; k" := (bind c (fun x => k))
  (at level 61, c at next level, right associativity).
Notation "' pat <- c ;; k" := (bind c (fun x => match x with pat => k end))
  (at level 61, pat pattern, c at next level, right associativity).

Definition succeeds {T : Type} (c : result T) : bool :=
  match c with Ok _ => true | Raise _ => false end.

(** The four [ValueError]s the module raises, under the names the
    specification gives them. *)
Definition ShapeError : Exception :=
  ValueError "'samples' must be provided as a (channel, time) torch.Tensor.".
Definition MissingRateError : Exception :=
  ValueError "'samples' must be provided with their 'sample_rate'.".
Definition AmbiguousSourceError : Exception :=
  ValueError "either 'audio' or 'samples' key must be provided.".
Definition RangeOverflowError : Exception :=
  ValueError "".

(** ** Python numbers *)

Module Py.

(** A Python [float]: IEEE 754 binary64. *)
Definition float : Type := spec_float.

Definition prec : Z := 53.
Definition emax : Z := 1024.

Definition float_of_int (n : Z) : float :=
  match n with
  | Z0 => S754_zero false
  | Zpos p => S754_finite false p 0
  | Zneg p => S754_finite true p 0
  end.

(** [a / b] on two [int]s: the correctly rounded quotient, or
    [ZeroDivisionError], or [OverflowError] when the quotient is out
    of the range of a float. *)
Definition truediv (a b : Z) : result float :=
  if b =? 0 then Raise ZeroDivisionError
  else
    match SFdiv prec emax (float_of_int a) (float_of_int b) with
    | S754_infinity _ => Raise OverflowError
    | q => Ok q
    end.

(** [round(x)] with one argument: the nearest integer, ties to the
    even one; [OverflowError] on an infinity, [ValueError] on a NaN. *)
Definition round_half_even (m d : Z) : Z :=
  let q := m / d in
  let r := m mod d in
  match 2 * r ?= d with
  | Lt => q
  | Gt => q + 1
  | Eq => if Z.even q then q else q + 1
  end.

Definition round (x : float) : result Z :=
  match x with
  | S754_zero _ => Ok 0
  | S754_infinity _ => Raise OverflowError
  | S754_nan => Raise (ValueError "cannot convert float NaN to integer")
  | S754_finite s m e =>
      let n := if 0 <=? e then Zpos m * 2 ^ e
               else round_half_even (Zpos m) (2 ^ (- e)) in
      Ok (if s then - n else n)
  end.

(** Whether a float holds an integral value. *)
Definition is_integer (x : float) : bool :=
  match x with
  | S754_zero _ => true
  | S754_finite _ m e => (0 <=? e) || (Zpos m mod 2 ^ (- e) =? 0)
  | _ => false
  end.

(** [range(len)[start:stop]] as the pair (first index, number of
    indices): a negative bound counts from the end, and both bounds
    are clamped to [0, len]. *)
Definition slice_bound (i : Z) (len : nat) : nat :=
  if i <? 0 then Z.to_nat (Z.max (i + Z.of_nat len) 0)
  else Z.to_nat (Z.min i (Z.of_nat len)).

Definition slice_indices (start stop : Z) (len : nat) : nat * nat :=
  let lo := slice_bound start len in
  let hi := slice_bound stop len in
  (lo, (hi - lo)%nat).

End Py.

(** ** Tensors

    A [torch.Tensor] (and the [numpy] array it converts to and from) is
    its shape and its elements in row-major order. *)

Record Tensor (A : Type) : Type := mkTensor {
  shape : list nat;
  data : list A
}.

Arguments mkTensor {A} shape data.
Arguments shape {A} t.
Arguments data {A} t.

(** The arithmetic the module asks of the elements of a tensor. *)
Class SampleOps (A : Type) : Type := {
  s_one : A;
  s_zero : A;
  s_add : A -> A -> A;
  s_mul : A -> A -> A;
  s_div : A -> A -> A;
  s_sqrt : A -> A;
  s_of_nat : nat -> A;
  s_eps : A  (* the literal 1e-8 *)
}.

Local Open Scope nat_scope.

Definition numel (shp : list nat) : nat := fold_right Nat.mul 1 shp.

Section TensorOps.

Context {A : Type}.

(** Well-formed: as many elements as the shape announces. *)
Definition wf (x : Tensor A) : Prop := length (data x) = numel (shape x).

(** The [i]-th block of [n] consecutive elements. *)
Definition chunk (n i : nat) (l : list A) : list A := firstn n (skipn (i * n) l).

(** The elements at positions [j], [stride + j], [2 * stride + j], ...:
    [count] of them. *)
Definition strided (count stride j : nat) (l : list A) : list A :=
  flat_map (fun i => firstn 1 (skipn (i * stride + j) l)) (seq 0 count).

(** [x\[c, t\]] of a 2-D tensor. *)
Definition item2 (x : Tensor A) (c t : nat) : option A :=
  match shape x with
  | [C; T] => if (c <? C) && (t <? T) then nth_error (data x) (c * T + t) else None
  | _ => None
  end.

(** [x\[:, start:stop\]]: a slice of the second axis. *)
Definition slice_time (x : Tensor A) (start stop : Z) : result (Tensor A) :=
  match shape x with
  | d0 :: d1 :: rest =>
      let '(lo, n) := Py.slice_indices start stop d1 in
      let inner := numel rest in
      Ok (mkTensor (d0 :: n :: rest)
            (flat_map (fun i => firstn (n * inner) (skipn (lo * inner) (chunk (d1 * inner) i (data x))))
                      (seq 0 d0)))
  | _ => Raise IndexError
  end.

(** [x\[start:stop, :\]]: a slice of the first axis. *)
Definition slice_channel (x : Tensor A) (start stop : Z) : result (Tensor A) :=
  match shape x with
  | d0 :: d1 :: rest =>
      let '(lo, n) := Py.slice_indices start stop d0 in
      let stride := numel (d1 :: rest) in
      Ok (mkTensor (n :: d1 :: rest) (firstn (n * stride) (skipn (lo * stride) (data x))))
  | _ => Raise IndexError
  end.

(** [x\[0\]] of a [numpy] array. *)
Definition index0 (x : Tensor A) : result (Tensor A) :=
  match shape x with
  | S _ :: rest => Ok (mkTensor rest (firstn (numel rest) (data x)))
  | _ => Raise IndexError
  end.

(** [x\[None\]]: a new leading axis of size 1. *)
Definition newaxis (x : Tensor A) : Tensor A := mkTensor (1 :: shape x) (data x).

(** All the indices of a shape, in row-major order, and the position of
    an index in the data. *)
Fixpoint indices (shp : list nat) : list (list nat) :=
  match shp with
  | [] => [[]]
  | n :: s => flat_map (fun i => map (cons i) (indices s)) (seq 0 n)
  end.

Fixpoint offset (shp idx : list nat) : nat :=
  match shp, idx with
  | _ :: s, i :: r => i * numel s + offset s r
  | _, _ => 0
  end.

(** [x.T]: the axes reversed. *)
Definition transpose (x : Tensor A) : Tensor A :=
  mkTensor (rev (shape x))
    (flat_map (fun idx => firstn 1 (skipn (offset (shape x) (rev idx)) (data x)))
              (indices (rev (shape x)))).

(** [x.t()]: [torch] transposes tensors of at most two axes only. *)
Definition t (x : Tensor A) : result (Tensor A) :=
  if length (shape x) <=? 2 then Ok (transpose x) else Raise RuntimeError.

Context `{SampleOps A}.

Definition sum (l : list A) : A :=
  match l with
  | [] => s_zero
  | v :: r => fold_left s_add r v
  end.

(** The arithmetic mean of the [count] elements [l]. *)
Definition mean_of (count : nat) (l : list A) : A := s_div (sum l) (s_of_nat count).

(** [x.mean(dim=0, keepdim=True)]. *)
Definition mean_dim0_keepdim (x : Tensor A) : result (Tensor A) :=
  match shape x with
  | d0 :: rest =>
      let stride := numel rest in
      Ok (mkTensor (1 :: rest)
            (map (fun j => mean_of d0 (strided d0 stride j (data x))) (seq 0 stride)))
  | [] => Raise IndexError
  end.

(** [x.mean(dim=1)]. *)
Definition mean_dim1 (x : Tensor A) : result (Tensor A) :=
  match shape x with
  | d0 :: d1 :: rest =>
      let inner := numel rest in
      Ok (mkTensor (d0 :: rest)
            (flat_map (fun i =>
                         map (fun k => mean_of d1 (strided d1 inner k (chunk (d1 * inner) i (data x))))
                             (seq 0 inner))
                      (seq 0 d0)))
  | _ => Raise IndexError
  end.

Definition square (x : Tensor A) : Tensor A :=
  mkTensor (shape x) (map (fun v => s_mul v v) (data x)).

Definition sqrt (x : Tensor A) : Tensor A :=
  mkTensor (shape x) (map s_sqrt (data x)).

(** [x + v] for a Python number [v]. *)
Definition add_scalar (x : Tensor A) (v : A) : Tensor A :=
  mkTensor (shape x) (map (fun u => s_add u v) (data x)).

Fixpoint zip_with (f : A -> A -> A) (l r : list A) : list A :=
  match l, r with
  | u :: l', v :: r' => f u v :: zip_with f l' r'
  | _, _ => []
  end.

(** [x / y] for a 2-D [x] of shape (n, m) and a 1-D [y] of shape (m),
    which broadcasts over the rows of [x]: the one case [rms_normalize]
    meets, its divisor having one entry per column of [samples.t()]. *)
Definition div_rows (x y : Tensor A) : result (Tensor A) :=
  match shape x, shape y with
  | [n; m], [m'] =>
      if m =? m' then
        Ok (mkTensor [n; m]
              (flat_map (fun i => zip_with s_div (chunk m i (data x)) (data y)) (seq 0 n)))
      else Raise RuntimeError
  | _, _ => Raise RuntimeError
  end.

End TensorOps.

(** ** Audio files

    [AudioFile = Union[Path, Text, dict]].  The dict is the one the module
    documents: its keys are optional, and a key that is present holds a
    value of the documented type ([None] counts as absent for
    ["sample_rate"] and ["channel"], which are read with [.get(_, None)]). *)

Record FileDict (A : Type) : Type := mkFileDict {
  key_samples : option (Tensor A);   (* "samples": (channel, time) tensor *)
  key_sample_rate : option Z;        (* "sample_rate" *)
  key_audio : option string;         (* "audio": str or Path *)
  key_channel : option Z             (* "channel" *)
}.

Arguments mkFileDict {A} _ _ _ _.
Arguments key_samples {A} f.
Arguments key_sample_rate {A} f.
Arguments key_audio {A} f.
Arguments key_channel {A} f.

Inductive AudioFile (A : Type) : Type :=
| PathFile (path : string)
| DictFile (file : FileDict A).

Arguments PathFile {A} path.
Arguments DictFile {A} file.

(** What [torchaudio.info] returns. *)
Record AudioMetaData : Type := mkAudioMetaData {
  info_sample_rate : Z;
  info_num_frames : Z
}.

(** The instance: [Audio(sample_rate, mono=True)]. *)
Record Audio : Type := mkAudio {
  sample_rate : Z;
  mono : bool
}.

Local Open Scope Z_scope.

Section Validation.

Context {A : Type}.

(** [Audio.is_valid] (lines 50-77). *)
Definition is_valid (file : AudioFile A) : result bool :=
  match file with
  | DictFile file =>
      match key_samples file with
      | Some samples =>
          if negb (length (shape samples) =? 2)%nat
             || (nth 1 (shape samples) 0 <? nth 0 (shape samples) 0)%nat
          then Raise ShapeError
          else
            match key_sample_rate file with
            | None => Raise MissingRateError
            | Some _ => Ok true
            end
      | None =>
          match key_audio file with
          | Some _ => Ok true
          | None => Raise AmbiguousSourceError
          end
      end
  | PathFile _ => Ok true
  end.

Context `{SampleOps A}.

(** [Audio.rms_normalize] (lines 79-94):
    [rms = samples.square().mean(dim=1).sqrt()] and
    [(samples.t() / (rms + 1e-8)).t()]. *)
Definition rms_of (samples : Tensor A) : result (Tensor A) :=
  m <- mean_dim1 (square samples) ;;
  Ok (sqrt m).

Definition rms_normalize (samples : Tensor A) : result (Tensor A) :=
  rms <- rms_of samples ;;
  st <- t samples ;;
  q <- div_rows st (add_scalar rms s_eps) ;;
  t q.

End Validation.

Section Reader.

Context {A : Type} `{SampleOps A}.

(** The collaborators: [torchaudio.info(path)],
    [torchaudio.load(path, frame_offset, num_frames)] (its first result)
    and [librosa.core.resample(y, orig_sr, target_sr)]. *)
Variable torchaudio_info : string -> result AudioMetaData.
Variable torchaudio_load : string -> Z -> Z -> result (Tensor A).
Variable librosa_resample : Tensor A -> Z -> Z -> result (Tensor A).

Variable self : Audio.

(** The second axis of a shape: [shape\[1\]]. *)
Definition shape1 (x : Tensor A) : result Z :=
  match shape x with
  | _ :: d1 :: _ => Ok (Z.of_nat d1)
  | _ => Raise IndexError
  end.

(** [Audio.get_num_samples] (lines 96-124). *)
Definition get_num_samples (file : AudioFile A) : result Py.float :=
  _ <- is_valid file ;;
  '(num_samples, sample_rate') <-
    match file with
    | DictFile file =>
        match key_samples file with
        | Some samples =>
            num_samples <- shape1 samples ;;
            match key_sample_rate file with
            | Some sample_rate => Ok (num_samples, sample_rate)
            | None => Raise KeyError
            end
        | None =>
            match key_audio file with
            | Some audio =>
                info <- torchaudio_info audio ;;
                Ok (info_num_frames info, info_sample_rate info)
            | None => Raise KeyError
            end
        end
    | PathFile file =>
        info <- torchaudio_info file ;;
        Ok (info_num_frames info, info_sample_rate info)
    end ;;
  Py.truediv (num_samples * sample_rate self) sample_rate'.

(** [Audio.downmix_and_resample] (lines 131-166), in its two steps. *)
Definition downmix (samples : Tensor A) : result (Tensor A) :=
  if mono self then
    match shape samples with
    | d0 :: _ => if (1 <? d0)%nat then mean_dim0_keepdim samples else Ok samples
    | [] => Raise IndexError
    end
  else Ok samples.

Definition resample (samples : Tensor A) (sample_rate' : Z) : result (Tensor A) :=
  if negb (sample_rate self =? sample_rate') then
    if mono self then
      first <- index0 samples ;;
      y <- librosa_resample first sample_rate' (sample_rate self) ;;
      Ok (newaxis y)
    else
      y <- librosa_resample (transpose samples) sample_rate' (sample_rate self) ;;
      Ok (transpose y)
  else Ok samples.

Definition downmix_and_resample (samples : Tensor A) (sample_rate' : Z)
  : result (Tensor A) :=
  samples <- downmix samples ;;
  resample samples sample_rate'.

(** What [__call__] learns of its source (lines 191-216). *)
Record Source : Type := mkSource {
  original_samples : option (Tensor A);
  audio_path : string;
  original_sample_rate : Z;
  original_total_num_samples : Z;
  channel : option Z
}.

Definition source_of (file : AudioFile A) : result Source :=
  match file with
  | DictFile file =>
      match key_samples file with
      | Some samples =>
          match key_sample_rate file with
          | Some rate =>
              total <- shape1 samples ;;
              Ok (mkSource (Some samples) "" rate total (key_channel file))
          | None => Raise KeyError
          end
      | None =>
          match key_audio file with
          | Some audio =>
              info <- torchaudio_info audio ;;
              Ok (mkSource None audio (info_sample_rate info) (info_num_frames info)
                    (key_channel file))
          | None => Raise KeyError
          end
      end
  | PathFile file =>
      info <- torchaudio_info file ;;
      Ok (mkSource None file (info_sample_rate info) (info_num_frames info) None)
  end.

(** The window at the native rate (lines 218-226):
    [(original_sample_offset, original_num_samples)]. *)
Definition native_window (src : Source) (sample_offset : Z) (num_samples : option Z)
  : result (Z * Z) :=
  q <- Py.truediv (sample_offset * original_sample_rate src) (sample_rate self) ;;
  original_sample_offset <- Py.round q ;;
  original_num_samples <-
    match num_samples with
    | None => Ok (original_total_num_samples src - original_sample_offset)
    | Some num_samples =>
        q <- Py.truediv (num_samples * original_sample_rate src) (sample_rate self) ;;
        Py.round q
    end ;;
  Ok (original_sample_offset, original_num_samples).

(** The samples of the window (lines 231-241). *)
Definition read_window (src : Source) (original_sample_offset original_num_samples : Z)
  : result (Tensor A) :=
  match original_samples src with
  | None => torchaudio_load (audio_path src) original_sample_offset original_num_samples
  | Some samples =>
      slice_time samples original_sample_offset
        (original_sample_offset + original_num_samples)
  end.

(** The channel selection (lines 243-244). *)
Definition select_channel (chan : option Z) (original_data : Tensor A)
  : result (Tensor A) :=
  match chan with
  | Some c => slice_channel original_data (c - 1) c
  | None => Ok original_data
  end.

(** [Audio.__call__] (lines 168-246). *)
Definition __call__ (file : AudioFile A) (sample_offset : Z) (num_samples : option Z)
  : result (Tensor A) :=
  _ <- is_valid file ;;
  src <- source_of file ;;
  '(original_sample_offset, original_num_samples) <-
    native_window src sample_offset num_samples ;;
  if original_total_num_samples src <? original_sample_offset + original_num_samples
  then Raise RangeOverflowError
  else
    original_data <- read_window src original_sample_offset original_num_samples ;;
    original_data <- select_channel (channel src) original_data ;;
    downmix_and_resample original_data (original_sample_rate src).

End Reader.

Arguments Source : clear implicits.

(** ** The contract of the range translator, in the specification's words *)

Module Spec.

(** [to_native_offset]: [round(target_offset * native_rate / target_rate)]. *)
Definition to_native_offset (target_offset native_rate target_rate : Z) : result Z :=
  q <- Py.truediv (target_offset * native_rate) target_rate ;;
  Py.round q.

(** [to_native_length]: the same rounding rule applied to the length. *)
Definition to_native_length (target_length native_rate target_rate : Z) : result Z :=
  q <- Py.truediv (target_length * native_rate) target_rate ;;
  Py.round q.

(** [project_length]: [native_total_samples * target_rate / native_rate],
    not rounded. *)
Definition project_length (native_total_samples native_rate target_rate : Z)
  : result Py.float :=
  Py.truediv (native_total_samples * target_rate) native_rate.

End Spec.

(** ** Two element types

    Single-precision floats, which is what a tensor of samples holds.
    The real numbers are no model of the samples: they are kept as the
    arithmetic in which dividing is scaling by the inverse, a law the
    floats do not have, and nothing about the reader is stated over
    them. *)

Module Float32.

Definition prec : Z := 24.
Definition emax : Z := 128.

Definition of_Z (n : Z) : spec_float := binary_normalize prec emax n 0 false.

#[export] Instance ops : SampleOps spec_float := {|
  s_one := of_Z 1;
  s_zero := S754_zero false;
  s_add := SFadd prec emax;
  s_mul := SFmul prec emax;
  s_div := SFdiv prec emax;
  s_sqrt := SFsqrt prec emax;
  s_of_nat := fun n => of_Z (Z.of_nat n);
  s_eps := SFdiv prec emax (of_Z 1) (of_Z 100000000)
|}.

End Float32.

Module Real.

Import Reals.

#[export] Instance ops : SampleOps R := {|
  s_one := 1%R;
  s_zero := 0%R;
  s_add := Rplus;
  s_mul := Rmult;
  s_div := Rdiv;
  s_sqrt := R_sqrt.sqrt;
  s_of_nat := INR;
  s_eps := (1 / 100000000)%R
|}.

End Real.

(** Stand-ins for the collaborators, for running the reader: a probe and
    a decoder over a disk that maps a path to the rate and the samples of
    the file there, and a resampler that rejects an empty signal and
    otherwise keeps every sample. *)
Module Stub.

Definition info {A : Type} (disk : string -> option (Z * Tensor A)) (path : string)
  : result AudioMetaData :=
  match disk path with
  | Some (rate, x) => Ok (mkAudioMetaData rate (Z.of_nat (nth 1 (shape x) 0%nat)))
  | None => Raise (CollaboratorError 0)
  end.

Definition load {A : Type} (disk : string -> option (Z * Tensor A)) (path : string)
           (frame_offset num_frames : Z) : result (Tensor A) :=
  match disk path with
  | Some (_, x) =>
      if (0 <=? frame_offset) && (0 <=? num_frames)
         && (frame_offset + num_frames <=? Z.of_nat (nth 1 (shape x) 0%nat))
      then slice_time x frame_offset (frame_offset + num_frames)
      else Raise (CollaboratorError 1)
  | None => Raise (CollaboratorError 0)
  end.

Definition resample {A : Type} (y : Tensor A) (orig_sr target_sr : Z)
  : result (Tensor A) :=
  if existsb (Nat.eqb 0) (shape y) then Raise (CollaboratorError 2) else Ok y.

End Stub.

(** ** Vocabulary of the statements *)

(** "Exactly 2-D with channel count at most the time length". *)
Definition channel_time_shaped {A : Type} (samples : Tensor A) : Prop :=
  exists C T : nat, shape samples = [C; T] /\ (C <= T)%nat.

(** [n] blocks of [k] elements each. *)
Definition uniform {B : Type} (f : nat -> list B) (n k : nat) : Prop :=
  forall i, (i < n)%nat -> length (f i) = k.

(** The in-memory descriptor [{"samples": x, "sample_rate": r, "channel": c}]. *)
Definition in_memory {A : Type} (x : Tensor A) (r : Z) (c : option Z) : AudioFile A :=
  DictFile (mkFileDict (Some x) (Some r) None c).

(** The descriptor [{"audio": path, "channel": c}]. *)
Definition path_in_dict {A : Type} (path : string) (c : option Z) : AudioFile A :=
  DictFile (mkFileDict None None (Some path) c).

(** A channel selector that names one of [C] channels, counted from 1
    (no selector names them all, provided there is one). *)
Definition names_a_channel (chan : option Z) (C : nat) : Prop :=
  match chan with
  | Some c => 1 <= c <= Z.of_nat C
  | None => (1 <= C)%nat
  end.

(** What the reader expects of its collaborators.  The decoder returns a
    2-D buffer.  The resampler returns an array of the rank it is given
    ([keeps_rank]); on the mono path, where it is handed a flat
    sequence, that is a flat sequence again ([flat_to_flat]).  Which axis
    it resamples, and to what length, is its own business. *)
Definition decodes_2d {A : Type} (load : string -> Z -> Z -> result (Tensor A)) : Prop :=
  forall path off num d, load path off num = Ok d -> length (shape d) = 2%nat.

Definition keeps_rank {A : Type}
           (resample : Tensor A -> Z -> Z -> result (Tensor A)) : Prop :=
  forall y a b z, resample y a b = Ok z -> length (shape z) = length (shape y).

Definition flat_to_flat {A : Type}
           (resample : Tensor A -> Z -> Z -> result (Tensor A)) : Prop :=
  forall y a b z n, resample y a b = Ok z -> shape y = [n] ->
                    exists n', shape z = [n'].

(** The root-mean-square power of channel [c] of a 2-D buffer:
    [sqrt(mean_t(x\[c, t\]^2))]. *)
Definition rms_of_channel {A : Type} `{SampleOps A} (x : Tensor A) (c : nat) : A :=
  let T := nth 1 (shape x) 0%nat in
  s_sqrt (mean_of T (map (fun v => s_mul v v) (chunk T c (data x)))).

(** The quotient before the last transposition: row [t] holds the
    samples of time [t], each divided by the power of its channel. *)
Definition scaled_rows {A : Type} `{SampleOps A} (x : Tensor A) (C T : nat) : list A :=
  flat_map (fun t => zip_with s_div (strided C T t (data x))
                       (map (fun c => s_add (rms_of_channel x c) s_eps) (seq 0 C)))
           (seq 0 T).

(** The law under which dividing by [d] is scaling by [1 / d]. *)
Definition division_scales (A : Type) `{SampleOps A} : Prop :=
  forall u d : A, s_div u d = s_mul u (s_div s_one d).

(** Sample inputs: single-precision buffers holding small integers. *)
Module Example.

Definition buffer (C T : nat) (values : list Z) : Tensor spec_float :=
  mkTensor [C; T] (map Float32.of_Z values).

(** Two channels of three samples. *)
Definition stereo : Tensor spec_float := buffer 2 3 [1; 2; 3; 4; 5; 6].

(** Three channels of three samples. *)
Definition three_channels : Tensor spec_float :=
  buffer 3 3 [1; 2; 3; 4; 5; 6; 7; 8; 9].

(** A buffer with the axes in the wrong order: three channels of two samples. *)
Definition transposed : Tensor spec_float := buffer 3 2 [1; 2; 3; 4; 5; 6].

(** A disk with one file, [stereo.wav], which holds [stereo] at 2 Hz. *)
Definition disk (path : string) : option (Z * Tensor spec_float) :=
  if String.eqb path "stereo.wav" then Some (2, stereo) else None.

Definition info : string -> result AudioMetaData := Stub.info disk.

Definition load : string -> Z -> Z -> result (Tensor spec_float) := Stub.load disk.

(** The reader over the stand-in collaborators. *)
Definition read : Audio -> AudioFile spec_float -> Z -> option Z -> result (Tensor spec_float) :=
  __call__ (H := Float32.ops) info load Stub.resample.

End Example.

(** ** Blocks of a row-major list *)

Section Blocks.

Context {B : Type}.

Lemma flat_map_empty {I : Type} (l : list I) :
  flat_map (fun _ => @nil B) l = [].
Proof. induction l; simpl; auto. Qed.

Lemma flat_map_singleton {I : Type} (g : I -> B) (l : list I) :
  flat_map (fun i => [g i]) l = map g l.
Proof. induction l; simpl; congruence. Qed.

Lemma flat_map_seq_S (f : nat -> list B) (a n : nat) :
  flat_map f (seq (S a) n) = flat_map (fun i => f (S i)) (seq a n).
Proof.
  rewrite <- seq_shift, flat_map_concat_map, map_map, <- flat_map_concat_map.
  reflexivity.
Qed.

Lemma uniform_S (f : nat -> list B) (n k : nat) :
  uniform f (S n) k -> uniform (fun i => f (S i)) n k.
Proof. intros U i Hi; apply U; lia. Qed.

Lemma length_flat_map_uniform (f : nat -> list B) (n k : nat) :
  uniform f n k -> length (flat_map f (seq 0 n)) = (n * k)%nat.
Proof.
  revert f; induction n as [|n IH]; intros f U; [reflexivity|].
  simpl seq; simpl flat_map.
  rewrite length_app, flat_map_seq_S, (IH _ (uniform_S f n k U)), (U 0%nat); lia.
Qed.

Lemma chunk_flat_map_uniform (f : nat -> list B) (n k i : nat) :
  uniform f n k -> (i < n)%nat -> chunk k i (flat_map f (seq 0 n)) = f i.
Proof.
  unfold chunk; revert f i; induction n as [|n IH]; intros f i U Hi; [lia|].
  simpl seq; simpl flat_map; rewrite flat_map_seq_S.
  pose proof (U 0%nat ltac:(lia)) as L0.
  destruct i as [|i].
  - simpl; rewrite firstn_app, L0, Nat.sub_diag, firstn_O, app_nil_r.
    apply firstn_all2; lia.
  - rewrite skipn_app, L0.
    replace (S i * k - k)%nat with (i * k)%nat by lia.
    rewrite (skipn_all2 (f 0%nat)) by lia.
    simpl app; apply (IH (fun j => f (S j)) i (uniform_S f n k U)); lia.
Qed.

Lemma nth_error_flat_map_uniform (f : nat -> list B) (n k i j : nat) :
  uniform f n k -> (i < n)%nat -> (j < k)%nat ->
  nth_error (flat_map f (seq 0 n)) (i * k + j) = nth_error (f i) j.
Proof.
  intros U Hi Hj.
  rewrite <- (chunk_flat_map_uniform f n k i U Hi); unfold chunk.
  rewrite nth_error_firstn.
  destruct (Nat.ltb_spec j k) as [_|]; [|lia].
  rewrite (nth_error_skipn (i * k)); reflexivity.
Qed.

Lemma chunks_concat (n k : nat) (l : list B) :
  length l = (k * n)%nat -> flat_map (fun i => chunk n i l) (seq 0 k) = l.
Proof.
  revert l; induction k as [|k IH]; intros l L.
  - destruct l; [reflexivity | discriminate].
  - simpl seq; simpl flat_map; rewrite flat_map_seq_S.
    rewrite (flat_map_ext _ (fun i => chunk n i (skipn n l))).
    + rewrite IH by (rewrite length_skipn; lia).
      unfold chunk; simpl; apply firstn_skipn.
    + intros i; unfold chunk; rewrite skipn_skipn; f_equal; f_equal; lia.
Qed.

Lemma length_chunk (n i : nat) (l : list B) :
  ((i + 1) * n <= length l)%nat -> length (chunk n i l) = n.
Proof.
  intros L; unfold chunk; rewrite length_firstn, length_skipn; lia.
Qed.

Lemma firstn_1_skipn (p : nat) (l : list B) (v : B) :
  nth_error l p = Some v -> firstn 1 (skipn p l) = [v].
Proof.
  revert l; induction p as [|p IH]; intros [|u l] E; simpl in *; try discriminate.
  - congruence.
  - apply IH, E.
Qed.

Lemma strided_uniform (count stride j : nat) (l : list B) :
  (j < stride)%nat -> length l = (count * stride)%nat ->
  uniform (fun i => firstn 1 (skipn (i * stride + j) l)) count 1.
Proof.
  intros Hj L i Hi.
  rewrite length_firstn, length_skipn.
  assert (i * stride + j < count * stride)%nat by nia.
  lia.
Qed.

Lemma length_strided (count stride j : nat) (l : list B) :
  (j < stride)%nat -> length l = (count * stride)%nat ->
  length (strided count stride j l) = count.
Proof.
  intros Hj L; unfold strided.
  rewrite (length_flat_map_uniform _ count 1 (strided_uniform count stride j l Hj L)).
  lia.
Qed.

Lemma nth_error_strided (count stride j i : nat) (l : list B) :
  (j < stride)%nat -> length l = (count * stride)%nat -> (i < count)%nat ->
  nth_error (strided count stride j l) i = nth_error l (i * stride + j).
Proof.
  intros Hj L Hi; unfold strided.
  replace i with (i * 1 + 0)%nat at 1 by lia.
  rewrite (nth_error_flat_map_uniform _ count 1 i 0
             (strided_uniform count stride j l Hj L) Hi) by lia.
  rewrite nth_error_firstn.
  change (0 <? 1)%nat with true; cbv iota.
  rewrite (nth_error_skipn (i * stride + j)); f_equal; lia.
Qed.

Lemma strided_unit (l : list B) : strided (length l) 1 0 l = l.
Proof.
  unfold strided; induction l as [|v l IH]; [reflexivity|].
  simpl length; simpl seq; simpl flat_map; rewrite flat_map_seq_S.
  f_equal.
  rewrite <- IH at 2; apply flat_map_ext; intros i.
  replace (S i * 1 + 0)%nat with (S (i * 1 + 0)) by lia; reflexivity.
Qed.

Lemma nth_error_zip_with (f : B -> B -> B) (l r : list B)
      (i : nat) (u v : B) :
  nth_error l i = Some u -> nth_error r i = Some v ->
  nth_error (zip_with f l r) i = Some (f u v).
Proof.
  revert r i; induction l as [|a l IH]; intros [|b r] [|i] El Er;
    simpl in *; try discriminate.
  - congruence.
  - apply IH; assumption.
Qed.

Lemma length_zip_with (f : B -> B -> B) (l r : list B) :
  length (zip_with f l r) = Nat.min (length l) (length r).
Proof.
  revert r; induction l as [|a l IH]; intros [|b r]; simpl; auto.
Qed.

End Blocks.

(** * Properties *)

(** ** The error monad *)

Lemma bind_Ok {T U : Type} (c : result T) (k : T -> result U) (u : U) :
  bind c k = Ok u -> exists v, c = Ok v /\ k v = Ok u.
Proof.
  destruct c as [v|e]; simpl; intros E; [exists v; auto | discriminate].
Qed.

(** ** Validation *)

Section ValidationFacts.

Context {A : Type}.

Lemma shape_test_spec (samples : Tensor A) :
  negb (length (shape samples) =? 2)%nat
  || (nth 1 (shape samples) 0 <? nth 0 (shape samples) 0)%nat = false
  <-> channel_time_shaped samples.
Proof.
  unfold channel_time_shaped; split.
  - intros E; apply orb_false_iff in E; destruct E as [E1 E2].
    apply negb_false_iff, Nat.eqb_eq in E1.
    destruct (shape samples) as [|C [|T [|]]]; try discriminate.
    exists C, T; split; [reflexivity|].
    simpl in E2; apply Nat.ltb_ge in E2; exact E2.
  - intros (C & T & -> & Hle); simpl.
    apply Nat.ltb_ge; exact Hle.
Qed.

Lemma shape_test_fails (samples : Tensor A) :
  ~ channel_time_shaped samples ->
  negb (length (shape samples) =? 2)%nat
  || (nth 1 (shape samples) 0 <? nth 0 (shape samples) 0)%nat = true.
Proof.
  intros N; apply not_false_is_true; intros E; apply N, shape_test_spec, E.
Qed.

Lemma is_valid_true (file : AudioFile A) (b : bool) :
  is_valid file = Ok b -> b = true.
Proof.
  destruct file as [p|d]; simpl.
  - congruence.
  - destruct (key_samples d).
    + destruct (negb _ || _); [discriminate|].
      destruct (key_sample_rate d); congruence.
    + destruct (key_audio d); congruence.
Qed.

(** C5. [is_valid] fails exactly on a mapping that carries badly shaped
    samples (not 2-D, or more channels than time steps: [ShapeError]),
    or else samples without a sample rate ([MissingRateError]), or else
    neither samples nor a path ([AmbiguousSourceError]), the checks
    being made in this order; a bare path and a path in a mapping pass;
    the check is a function of the descriptor alone and its only value
    is [True]. *)
Theorem is_valid_failures (file : AudioFile A) :
  (succeeds (is_valid file) = false <->
   exists d, file = DictFile d /\
     ((exists s, key_samples d = Some s /\ ~ channel_time_shaped s) \/
      (exists s, key_samples d = Some s /\ key_sample_rate d = None) \/
      (key_samples d = None /\ key_audio d = None)))
  /\ (forall d s, file = DictFile d -> key_samples d = Some s ->
        ~ channel_time_shaped s -> is_valid file = Raise ShapeError)
  /\ (forall d s, file = DictFile d -> key_samples d = Some s ->
        channel_time_shaped s -> key_sample_rate d = None ->
        is_valid file = Raise MissingRateError)
  /\ (forall d, file = DictFile d -> key_samples d = None -> key_audio d = None ->
        is_valid file = Raise AmbiguousSourceError)
  /\ (forall p, file = PathFile p -> is_valid file = Ok true)
  /\ (forall d p, file = DictFile d -> key_samples d = None -> key_audio d = Some p ->
        is_valid file = Ok true)
  /\ (forall b, is_valid file = Ok b -> b = true).
Proof.
  repeat split.
  - (* a failure has one of the three causes *)
    destruct file as [p|d]; simpl; [discriminate|].
    intros F; exists d; split; [reflexivity|].
    destruct (key_samples d) as [s|] eqn:Es.
    + destruct (negb _ || _) eqn:Et.
      * left; exists s; split; [reflexivity|].
        intros Hs; apply shape_test_spec in Hs; congruence.
      * destruct (key_sample_rate d); [discriminate|].
        right; left; exists s; auto.
    + destruct (key_audio d); [discriminate|].
      right; right; auto.
  - (* each cause is a failure *)
    intros (d & -> & [(s & Es & Hs) | [(s & Es & Er) | (Es & Ea)]]); simpl.
    + rewrite Es, (shape_test_fails s Hs); reflexivity.
    + rewrite Es, Er; destruct (negb _ || _); reflexivity.
    + rewrite Es, Ea; reflexivity.
  - intros d s -> Es Hs; simpl.
    rewrite Es, (shape_test_fails s Hs); reflexivity.
  - intros d s -> Es Hs Er; simpl.
    apply shape_test_spec in Hs; rewrite Es, Hs, Er; reflexivity.
  - intros d -> Es Ea; simpl; rewrite Es, Ea; reflexivity.
  - intros p ->; reflexivity.
  - intros d p -> Es Ea; simpl; rewrite Es, Ea; reflexivity.
  - intros b; apply is_valid_true.
Qed.

End ValidationFacts.


(** ** Slices *)

Lemma slice_bound_inside (i : Z) (len : nat) :
  0 <= i <= Z.of_nat len -> Py.slice_bound i len = Z.to_nat i.
Proof.
  intros Hi; unfold Py.slice_bound.
  destruct (Z.ltb_spec i 0); [lia|].
  rewrite Z.min_l by lia; reflexivity.
Qed.

Lemma slice_bound_beyond (i : Z) (len : nat) :
  Z.of_nat len <= i -> Py.slice_bound i len = len.
Proof.
  intros Hi; unfold Py.slice_bound.
  destruct (Z.ltb_spec i 0); [lia|].
  rewrite Z.min_r by lia; apply Nat2Z.id.
Qed.

Lemma slice_indices_inside (start stop : Z) (len : nat) :
  0 <= start <= stop -> stop <= Z.of_nat len ->
  Py.slice_indices start stop len = (Z.to_nat start, Z.to_nat (stop - start)).
Proof.
  intros H1 H2; unfold Py.slice_indices.
  rewrite !slice_bound_inside by lia.
  f_equal; lia.
Qed.

Lemma slice_indices_beyond (start stop : Z) (len : nat) :
  Z.of_nat len <= start -> Z.of_nat len <= stop ->
  Py.slice_indices start stop len = (len, 0%nat).
Proof.
  intros H1 H2; unfold Py.slice_indices.
  rewrite !slice_bound_beyond by lia.
  f_equal; lia.
Qed.

Section TensorFacts.

Context {A : Type}.

Lemma flat_map_ext_in {I : Type} (f g : I -> list A) (l : list I) :
  (forall i, In i l -> f i = g i) -> flat_map f l = flat_map g l.
Proof.
  induction l as [|i l IH]; intros E; simpl; [reflexivity|].
  rewrite (E i) by (left; reflexivity).
  rewrite IH by (intros j Hj; apply E; right; exact Hj).
  reflexivity.
Qed.

Lemma nth_error_chunk (n i j : nat) (l : list A) :
  (j < n)%nat -> nth_error (chunk n i l) j = nth_error l (i * n + j).
Proof.
  intros Hj; unfold chunk.
  rewrite nth_error_firstn.
  destruct (Nat.ltb_spec j n); [|lia].
  apply (nth_error_skipn (i * n)).
Qed.

(** The whole time axis is the whole tensor. *)
Lemma slice_time_all (x : Tensor A) (C T : nat) :
  wf x -> shape x = [C; T] -> slice_time x 0 (Z.of_nat T) = Ok x.
Proof.
  unfold wf; destruct x as [shp dat]; simpl; intros W ->.
  unfold slice_time; simpl shape; cbv iota.
  rewrite (slice_indices_inside 0 (Z.of_nat T) T) by lia.
  simpl numel in *.
  replace (Z.to_nat (Z.of_nat T - 0)) with T by lia.
  f_equal; f_equal; simpl data.
  rewrite (flat_map_ext _ (fun i => chunk T i dat)).
  - apply chunks_concat; lia.
  - intros i; rewrite !Nat.mul_1_r; simpl skipn.
    apply firstn_all2; unfold chunk; rewrite length_firstn; lia.
Qed.

(** A window that starts past the end is empty. *)
Lemma slice_time_beyond (x : Tensor A) (C T : nat) (start stop : Z) :
  shape x = [C; T] -> Z.of_nat T <= start -> Z.of_nat T <= stop ->
  slice_time x start stop = Ok (mkTensor [C; 0%nat] []).
Proof.
  intros Hs H1 H2; unfold slice_time; rewrite Hs.
  rewrite (slice_indices_beyond start stop T H1 H2).
  f_equal; f_equal; apply flat_map_empty.
Qed.

Lemma slice_time_shape (x y : Tensor A) (start stop : Z) :
  slice_time x start stop = Ok y ->
  exists d0 d1 n rest, shape x = d0 :: d1 :: rest /\ shape y = d0 :: n :: rest
                       /\ n = snd (Py.slice_indices start stop d1).
Proof.
  unfold slice_time.
  destruct (shape x) as [|d0 [|d1 rest]]; try discriminate.
  destruct (Py.slice_indices start stop d1) as [lo n] eqn:E.
  intros [= <-]; exists d0, d1, n, rest; repeat split.
  rewrite E; reflexivity.
Qed.

(** ** Channel selection *)

Lemma select_channel_named (d : Tensor A) (C n : nat) (c : Z) :
  shape d = [C; n] -> 1 <= c <= Z.of_nat C ->
  select_channel (Some c) d
  = Ok (mkTensor [1%nat; n] (chunk n (Z.to_nat (c - 1)) (data d))).
Proof.
  intros Hs Hc; unfold select_channel, slice_channel; rewrite Hs.
  rewrite (slice_indices_inside (c - 1) c C) by lia.
  replace (Z.to_nat (c - (c - 1))) with 1%nat by lia.
  unfold chunk; simpl numel.
  rewrite !Nat.mul_1_r, Nat.mul_1_l; reflexivity.
Qed.

Lemma select_channel_beyond (d : Tensor A) (C n : nat) (c : Z) :
  shape d = [C; n] -> Z.of_nat C < c ->
  select_channel (Some c) d = Ok (mkTensor [0%nat; n] []).
Proof.
  intros Hs Hc; unfold select_channel, slice_channel; rewrite Hs.
  rewrite (slice_indices_beyond (c - 1) c C) by lia.
  reflexivity.
Qed.

Lemma select_channel_shape (chan : option Z) (d d' : Tensor A) (C n : nat) :
  shape d = [C; n] -> select_channel chan d = Ok d' ->
  exists C', shape d' = [C'; n]
             /\ (names_a_channel chan C -> (1 <= C')%nat)
             /\ (n = 0%nat -> data d = [] -> data d' = []).
Proof.
  intros Hs; destruct chan as [c|]; simpl.
  - unfold slice_channel; rewrite Hs.
    destruct (Py.slice_indices (c - 1) c C) as [lo k] eqn:E.
    intros [= <-]; exists k; simpl; repeat split.
    + intros Hc.
      rewrite (slice_indices_inside (c - 1) c C) in E by lia.
      injection E as _ <-; lia.
    + intros -> ->; rewrite skipn_nil, firstn_nil; reflexivity.
  - intros [= <-]; exists C; repeat split; auto.
Qed.

(** The selected row holds the samples of channel [c - 1]. *)
Lemma item2_selected (d : Tensor A) (C n i t : nat) :
  shape d = [C; n] -> (i < C)%nat -> (t < n)%nat ->
  item2 (mkTensor [1%nat; n] (chunk n i (data d))) 0 t = item2 d i t.
Proof.
  intros Hs Hi Ht; unfold item2; rewrite Hs; simpl shape.
  destruct (Nat.ltb_spec 0 1); [|lia].
  destruct (Nat.ltb_spec t n); [|lia].
  destruct (Nat.ltb_spec i C); [|lia].
  simpl; apply nth_error_chunk, Ht.
Qed.

End TensorFacts.

(** ** Transposition of a 2-D tensor *)

Section TransposeFacts.

Context {A : Type}.

Lemma flat_map_flat_map {I J : Type} (g : J -> list A) (f : I -> list J) (l : list I) :
  flat_map g (flat_map f l) = flat_map (fun i => flat_map g (f i)) l.
Proof.
  induction l as [|i l IH]; simpl; [reflexivity|].
  rewrite flat_map_app, IH; reflexivity.
Qed.

Lemma flat_map_map {I J : Type} (g : J -> list A) (f : I -> J) (l : list I) :
  flat_map g (map f l) = flat_map (fun i => g (f i)) l.
Proof. induction l as [|i l IH]; simpl; congruence. Qed.

Lemma transpose_2d (x : Tensor A) (C T : nat) :
  shape x = [C; T] ->
  transpose x = mkTensor [T; C] (flat_map (fun t => strided C T t (data x)) (seq 0 T)).
Proof.
  intros Hs; unfold transpose; rewrite Hs.
  change (rev [C; T]) with [T; C]; f_equal.
  cbn [indices]; rewrite flat_map_flat_map.
  apply flat_map_ext; intros t.
  rewrite flat_map_map, flat_map_flat_map; unfold strided.
  apply flat_map_ext; intros c.
  cbn [map flat_map rev app offset numel fold_right].
  rewrite app_nil_r; f_equal; f_equal; lia.
Qed.

Lemma transpose_uniform (C T : nat) (l : list A) :
  length l = (C * T)%nat -> uniform (fun t => strided C T t l) T C.
Proof. intros L t Ht; apply length_strided; assumption. Qed.

Lemma length_transpose_2d (x : Tensor A) (C T : nat) :
  wf x -> shape x = [C; T] -> length (data (transpose x)) = (T * C)%nat.
Proof.
  unfold wf; intros W Hs; rewrite (transpose_2d x C T Hs); rewrite Hs in W.
  simpl in *; rewrite Nat.mul_1_r in W.
  apply length_flat_map_uniform, transpose_uniform, W.
Qed.

(** [x.T\[t, c\]] is [x\[c, t\]]. *)
Lemma nth_error_transpose_2d (x : Tensor A) (C T c t : nat) :
  length (data x) = (C * T)%nat -> shape x = [C; T] -> (c < C)%nat -> (t < T)%nat ->
  nth_error (data (transpose x)) (t * C + c) = nth_error (data x) (c * T + t).
Proof.
  intros W Hs Hc Ht; rewrite (transpose_2d x C T Hs); simpl data.
  rewrite (nth_error_flat_map_uniform _ T C t c (transpose_uniform C T _ W) Ht Hc).
  apply nth_error_strided; assumption.
Qed.

End TransposeFacts.

(** ** Power normalisation *)

Section RmsFacts.

Context {A : Type} `{SampleOps A}.

Lemma chunk_map (f : A -> A) (n i : nat) (l : list A) :
  chunk n i (map f l) = map f (chunk n i l).
Proof. unfold chunk; rewrite skipn_map, firstn_map; reflexivity. Qed.

(** The first step: one root-mean-square power per channel. *)
Lemma rms_of_2d (x : Tensor A) (C T : nat) :
  wf x -> shape x = [C; T] ->
  rms_of x = Ok (mkTensor [C] (map (rms_of_channel x) (seq 0 C))).
Proof.
  unfold wf; intros W Hs; rewrite Hs in W; simpl in W; rewrite Nat.mul_1_r in W.
  unfold rms_of, mean_dim1, square; simpl shape; rewrite Hs; simpl bind.
  unfold sqrt; simpl shape; simpl data; f_equal; f_equal.
  rewrite flat_map_singleton, map_map.
  apply map_ext_in; intros c Hc; apply in_seq in Hc.
  unfold rms_of_channel; rewrite Hs.
  cbn [nth]; rewrite Nat.mul_1_r, chunk_map.
  f_equal; f_equal.
  rewrite <- (strided_unit (map _ (chunk T c (data x)))) at 2.
  rewrite length_map, length_chunk by nia.
  reflexivity.
Qed.

Lemma scaled_rows_uniform (x : Tensor A) (C T : nat) :
  length (data x) = (C * T)%nat ->
  uniform (fun t => zip_with s_div (strided C T t (data x))
                      (map (fun c => s_add (rms_of_channel x c) s_eps) (seq 0 C)))
          T C.
Proof.
  intros W t Ht.
  rewrite length_zip_with, length_map, length_seq, length_strided by assumption.
  apply Nat.min_id.
Qed.

Lemma rms_normalize_2d (x : Tensor A) (C T : nat) :
  wf x -> shape x = [C; T] ->
  rms_normalize x = Ok (transpose (mkTensor [T; C] (scaled_rows x C T))).
Proof.
  intros W Hs; unfold rms_normalize.
  rewrite (rms_of_2d x C T W Hs); simpl bind.
  unfold wf in W; rewrite Hs in W; simpl in W; rewrite Nat.mul_1_r in W.
  unfold t at 1; rewrite Hs; simpl bind.
  unfold div_rows; rewrite (transpose_2d x C T Hs); simpl shape; simpl data.
  cbv iota; rewrite Nat.eqb_refl; simpl bind.
  unfold t; simpl; f_equal; f_equal; f_equal.
  unfold scaled_rows; rewrite map_map.
  apply flat_map_ext_in; intros i Hi; apply in_seq in Hi.
  rewrite (chunk_flat_map_uniform _ T C i (transpose_uniform C T _ W)) by lia.
  reflexivity.
Qed.

(** C8. [rms_normalize] returns a buffer of the shape of its input in
    which every sample of channel [c] is divided by [rms_c + 1e-8],
    where [rms_c = sqrt(mean_t(x\[c, t\]^2))]; that is, where
    division is scaling by the inverse, channel [c] is scaled by the
    constant [1 / (rms_c + 1e-8)].  The result depends on the buffer
    alone. *)
Theorem rms_normalize_scales (x : Tensor A) (C T : nat) :
  wf x -> shape x = [C; T] ->
  exists y : Tensor A,
    rms_normalize x = Ok y
    /\ shape y = shape x
    /\ wf y
    /\ forall (c t : nat) (v : A),
         item2 x c t = Some v ->
         item2 y c t = Some (s_div v (s_add (rms_of_channel x c) s_eps))
         /\ (division_scales A ->
             item2 y c t
             = Some (s_mul v (s_div s_one (s_add (rms_of_channel x c) s_eps)))).
Proof.
  intros W Hs.
  exists (transpose (mkTensor [T; C] (scaled_rows x C T))).
  split; [apply (rms_normalize_2d x C T W Hs)|].
  unfold wf in W; rewrite Hs in W; simpl in W; rewrite Nat.mul_1_r in W.
  pose proof (length_flat_map_uniform _ T C (scaled_rows_uniform x C T W)) as Lq.
  fold (scaled_rows x C T) in Lq.
  set (q := mkTensor [T; C] (scaled_rows x C T)) in *.
  assert (Hq : shape q = [T; C]) by reflexivity.
  split; [rewrite (transpose_2d q T C Hq), Hs; reflexivity|].
  split.
  { unfold wf; rewrite (transpose_2d q T C Hq); simpl.
    rewrite (length_flat_map_uniform _ C T (transpose_uniform T C _ Lq)); lia. }
  intros c t v Ev.
  assert (E : item2 (transpose q) c t
              = Some (s_div v (s_add (rms_of_channel x c) s_eps))).
  { unfold item2 in Ev; rewrite Hs in Ev.
    destruct (Nat.ltb_spec c C) as [Hc|]; [|discriminate].
    destruct (Nat.ltb_spec t T) as [Ht|]; [|discriminate].
    simpl in Ev.
    assert (Hcb : (c <? C)%nat = true) by (apply Nat.ltb_lt, Hc).
    assert (Htb : (t <? T)%nat = true) by (apply Nat.ltb_lt, Ht).
    unfold item2; rewrite (transpose_2d q T C Hq); simpl shape; cbv iota.
    rewrite Hcb, Htb; simpl andb; cbv iota.
    rewrite <- (transpose_2d q T C Hq).
    rewrite (nth_error_transpose_2d q T C t c Lq Hq Ht Hc); simpl data.
    unfold scaled_rows.
    rewrite (nth_error_flat_map_uniform _ T C t c (scaled_rows_uniform x C T W) Ht Hc).
    apply nth_error_zip_with.
    - rewrite (nth_error_strided C T t c (data x) Ht W Hc); exact Ev.
    - rewrite nth_error_map, nth_error_seq.
      destruct (Nat.ltb_spec c C); [reflexivity | lia]. }
  split; [exact E|].
  intros Law; rewrite E, Law; reflexivity.
Qed.

End RmsFacts.
(** ** The read, step by step *)

Section ReaderFacts.

Context {A : Type} `{SampleOps A}.

Variable torchaudio_info : string -> result AudioMetaData.
Variable torchaudio_load : string -> Z -> Z -> result (Tensor A).
Variable librosa_resample : Tensor A -> Z -> Z -> result (Tensor A).
Variable self : Audio.

Local Abbreviation read := (__call__ torchaudio_info torchaudio_load librosa_resample self).
Local Abbreviation finish := (downmix_and_resample librosa_resample self).

(** A read that gets past validation, probing and the translation of
    its window is the bounds check followed by the three later steps. *)
Lemma call_unfold (file : AudioFile A) (so : Z) (ns : option Z)
      (src : Source A) (off num : Z) :
  is_valid file = Ok true ->
  source_of torchaudio_info file = Ok src ->
  native_window self src so ns = Ok (off, num) ->
  read file so ns =
    if original_total_num_samples src <? off + num then Raise RangeOverflowError
    else
      original_data <- read_window torchaudio_load src off num ;;
      original_data <- select_channel (channel src) original_data ;;
      finish original_data (original_sample_rate src).
Proof.
  intros Ev Es Ew; unfold __call__.
  rewrite Ev; simpl; rewrite Es; simpl; rewrite Ew; reflexivity.
Qed.

(** Conversely a successful read went through each step. *)
Lemma call_Ok_inv (file : AudioFile A) (so : Z) (ns : option Z) (out : Tensor A) :
  read file so ns = Ok out ->
  exists src off num d d',
    is_valid file = Ok true /\
    source_of torchaudio_info file = Ok src /\
    native_window self src so ns = Ok (off, num) /\
    off + num <= original_total_num_samples src /\
    read_window torchaudio_load src off num = Ok d /\
    select_channel (channel src) d = Ok d' /\
    finish d' (original_sample_rate src) = Ok out.
Proof.
  unfold __call__; intros E.
  apply bind_Ok in E; destruct E as (b & Ev & E).
  apply bind_Ok in E; destruct E as (src & Es & E).
  apply bind_Ok in E; destruct E as ([off num] & Ew & E).
  destruct (original_total_num_samples src <? off + num) eqn:Eb; [discriminate|].
  apply Z.ltb_ge in Eb.
  apply bind_Ok in E; destruct E as (d & Ed & E).
  apply bind_Ok in E; destruct E as (d' & Ed' & E).
  exists src, off, num, d, d'; repeat split; auto.
  rewrite Ev; f_equal; apply (is_valid_true file), Ev.
Qed.

Lemma native_window_spec (src : Source A) (so : Z) (ns : option Z) (off num : Z) :
  native_window self src so ns = Ok (off, num) <->
  Spec.to_native_offset so (original_sample_rate src) (sample_rate self) = Ok off /\
  match ns with
  | Some n =>
      Spec.to_native_length n (original_sample_rate src) (sample_rate self) = Ok num
  | None => num = original_total_num_samples src - off
  end.
Proof.
  unfold native_window, Spec.to_native_offset, Spec.to_native_length; split.
  - intros E.
    apply bind_Ok in E; destruct E as (q & Eq & E).
    apply bind_Ok in E; destruct E as (o & Eo & E).
    apply bind_Ok in E; destruct E as (n' & En & E).
    injection E as <- <-.
    rewrite Eq; simpl; split; [exact Eo|].
    destruct ns as [n|]; [exact En | congruence].
  - intros [Eo En].
    apply bind_Ok in Eo; destruct Eo as (q & Eq & Eo).
    rewrite Eq; simpl; rewrite Eo; simpl.
    destruct ns as [n|].
    + rewrite En; reflexivity.
    + subst num; reflexivity.
Qed.

(** C2. A read whose translated window exceeds the source, that is with
    [native_offset + native_length > native_total_samples], fails with
    [RangeOverflowError]; it returns no buffer, truncated or otherwise. *)
Theorem overflow_rejected (file : AudioFile A) (so : Z) (ns : option Z)
        (src : Source A) (off num : Z) :
  is_valid file = Ok true ->
  source_of torchaudio_info file = Ok src ->
  native_window self src so ns = Ok (off, num) ->
  off + num > original_total_num_samples src ->
  read file so ns = Raise RangeOverflowError /\
  forall out, read file so ns <> Ok out.
Proof.
  intros Ev Es Ew Hover.
  assert (E : read file so ns = Raise RangeOverflowError).
  { rewrite (call_unfold file so ns src off num Ev Es Ew).
    assert (Hb : (original_total_num_samples src <? off + num) = true)
      by (apply Z.ltb_lt; lia).
    rewrite Hb; reflexivity. }
  split; [exact E | intros out; rewrite E; discriminate].
Qed.

(** C3. The window of a read is translated to the native rate by
    [native_offset = round(sample_offset * native_rate / target_rate)];
    with [num_samples] given,
    [native_length = round(num_samples * native_rate / target_rate)],
    whatever the offset; without it,
    [native_length = native_total_samples - native_offset]; and every
    successful read has read the window so translated. *)
Theorem window_translation :
  (forall (src : Source A) (so : Z) (ns : option Z) (off num : Z),
     native_window self src so ns = Ok (off, num) <->
     Spec.to_native_offset so (original_sample_rate src) (sample_rate self) = Ok off /\
     match ns with
     | Some n =>
         Spec.to_native_length n (original_sample_rate src) (sample_rate self) = Ok num
     | None => num = original_total_num_samples src - off
     end)
  /\ (forall (src : Source A) (so so' n off off' num num' : Z),
        native_window self src so (Some n) = Ok (off, num) ->
        native_window self src so' (Some n) = Ok (off', num') ->
        num = num')
  /\ (forall (file : AudioFile A) (so : Z) (ns : option Z) (out : Tensor A),
        read file so ns = Ok out ->
        exists src off num d,
          source_of torchaudio_info file = Ok src /\
          Spec.to_native_offset so (original_sample_rate src) (sample_rate self) = Ok off /\
          match ns with
          | Some n =>
              Spec.to_native_length n (original_sample_rate src) (sample_rate self)
              = Ok num
          | None => num = original_total_num_samples src - off
          end /\
          read_window torchaudio_load src off num = Ok d /\
          (d' <- select_channel (channel src) d ;;
           finish d' (original_sample_rate src)) = Ok out).
Proof.
  split; [exact native_window_spec | split].
  - intros src so so' n off off' num num' E E'.
    apply native_window_spec in E, E'.
    destruct E as [_ E], E' as [_ E']; congruence.
  - intros file so ns out E.
    apply call_Ok_inv in E.
    destruct E as (src & off & num & d & d' & _ & Es & Ew & _ & Ed & Ed' & E).
    apply native_window_spec in Ew; destruct Ew as [Eo En].
    exists src, off, num, d; repeat split; auto.
    rewrite Ed'; exact E.
Qed.

(** The source of a valid in-memory descriptor. *)
Lemma source_of_in_memory (x : Tensor A) (r : Z) (c : option Z) (C T : nat) :
  shape x = [C; T] ->
  source_of torchaudio_info (in_memory x r c)
  = Ok (mkSource (Some x) "" r (Z.of_nat T) c).
Proof.
  intros Hs; unfold source_of, in_memory, shape1; simpl; rewrite Hs; reflexivity.
Qed.

Lemma is_valid_in_memory (x : Tensor A) (r : Z) (c : option Z) (C T : nat) :
  shape x = [C; T] -> (C <= T)%nat -> is_valid (in_memory x r c) = Ok true.
Proof.
  intros Hs Hle; unfold is_valid, in_memory; simpl.
  assert (E : channel_time_shaped x) by (exists C, T; auto).
  apply shape_test_spec in E; rewrite E; reflexivity.
Qed.

Lemma get_num_samples_spec (file : AudioFile A) (src : Source A) :
  is_valid file = Ok true ->
  source_of torchaudio_info file = Ok src ->
  get_num_samples torchaudio_info self file
  = Spec.project_length (original_total_num_samples src) (original_sample_rate src)
      (sample_rate self).
Proof.
  intros Ev Es; unfold get_num_samples, Spec.project_length.
  rewrite Ev; simpl.
  destruct file as [p|d]; simpl in *.
  - destruct (torchaudio_info p) as [i|e]; simpl in *; [|discriminate].
    injection Es as <-; reflexivity.
  - destruct (key_samples d) as [s|].
    + destruct (key_sample_rate d) as [r|]; [|discriminate].
      destruct (shape1 s) as [n|e]; simpl in *; [|discriminate].
      injection Es as <-; reflexivity.
    + destruct (key_audio d) as [a|]; [|discriminate].
      destruct (torchaudio_info a) as [i|e]; simpl in *; [|discriminate].
      injection Es as <-; reflexivity.
Qed.


(** ** Downmix and resample *)

Lemma downmix_mono_off (x : Tensor A) : mono self = false -> downmix self x = Ok x.
Proof. intros E; unfold downmix; rewrite E; reflexivity. Qed.

Lemma downmix_single (x : Tensor A) (C : nat) (rest : list nat) :
  shape x = C :: rest -> (C <= 1)%nat -> downmix self x = Ok x.
Proof.
  intros Hs HC; unfold downmix; rewrite Hs.
  destruct (mono self); [|reflexivity].
  destruct (Nat.ltb_spec 1 C); [lia | reflexivity].
Qed.

Lemma downmix_mean (x : Tensor A) (C : nat) (rest : list nat) :
  mono self = true -> shape x = C :: rest -> (1 < C)%nat ->
  downmix self x
  = Ok (mkTensor (1%nat :: rest)
          (map (fun j => mean_of C (strided C (numel rest) j (data x)))
               (seq 0 (numel rest)))).
Proof.
  intros Em Hs HC; unfold downmix, mean_dim0_keepdim; rewrite Em, Hs.
  destruct (Nat.ltb_spec 1 C); [reflexivity | lia].
Qed.

Lemma resample_same_rate (x : Tensor A) (r : Z) :
  sample_rate self = r -> resample librosa_resample self x r = Ok x.
Proof.
  intros <-; unfold resample; rewrite Z.eqb_refl; reflexivity.
Qed.

Lemma finish_same_rate (x : Tensor A) (r : Z) :
  sample_rate self = r -> finish x r = downmix self x.
Proof.
  intros E; unfold downmix_and_resample.
  destruct (downmix self x) as [y|e]; simpl; [apply resample_same_rate, E | reflexivity].
Qed.

(** The downmix of a 2-D buffer keeps its time axis. *)
Lemma downmix_shape (x y : Tensor A) (C n : nat) :
  shape x = [C; n] -> downmix self x = Ok y ->
  exists C', shape y = [C'; n]
             /\ ((1 <= C)%nat -> (1 <= C')%nat)
             /\ (mono self = true -> (C' <= 1)%nat)
             /\ (mono self = false \/ (C <= 1)%nat -> y = x)
             /\ (n = 0%nat -> data x = [] -> data y = []).
Proof.
  intros Hs; unfold downmix, mean_dim0_keepdim; rewrite Hs.
  destruct (mono self) eqn:Em.
  - destruct (Nat.ltb_spec 1 C) as [HC|HC]; intros [= <-].
    + exists 1%nat; simpl.
      split; [reflexivity|].
      split; [intros _; lia|].
      split; [intros _; lia|].
      split; [intros [E|E]; [discriminate | lia]|].
      intros -> _; reflexivity.
    + exists C.
      split; [exact Hs|].
      split; [auto|].
      split; [intros _; exact HC|].
      split; auto.
  - intros [= <-]; exists C.
    split; [exact Hs|].
    split; [auto|].
    split; [discriminate|].
    split; auto.
Qed.

Lemma to_native_offset_0 (r : Z) :
  sample_rate self <> 0 -> Spec.to_native_offset 0 r (sample_rate self) = Ok 0.
Proof.
  intros Hsr; unfold Spec.to_native_offset, Py.truediv; rewrite Z.mul_0_l.
  destruct (Z.eqb_spec (sample_rate self) 0) as [E|_]; [contradiction|].
  destruct (sample_rate self); [contradiction | reflexivity | reflexivity].
Qed.

(** The read of a whole in-memory buffer, up to the last step. *)
Lemma read_whole (x : Tensor A) (r : Z) (C T : nat) :
  wf x -> shape x = [C; T] -> (C <= T)%nat -> sample_rate self <> 0 ->
  read (in_memory x r None) 0 None = finish x r.
Proof.
  intros W Hs Hle Hsr.
  rewrite (call_unfold _ 0 None (mkSource (Some x) "" r (Z.of_nat T) None) 0 (Z.of_nat T)
             (is_valid_in_memory x r None C T Hs Hle)
             (source_of_in_memory x r None C T Hs)).
  - simpl original_total_num_samples.
    destruct (Z.ltb_spec (Z.of_nat T) (0 + Z.of_nat T)); [lia|].
    unfold read_window; simpl.
    rewrite (slice_time_all x C T W Hs); reflexivity.
  - apply native_window_spec; simpl; split; [apply to_native_offset_0, Hsr | lia].
Qed.

(** C6. When the native rate of the source is the target rate, the
    read makes no call to the resampler: it returns the selected samples
    as they are, or their mono downmix; in particular the read of a
    whole in-memory buffer [x] at its own rate returns [x]. *)
Theorem same_rate_passthrough :
  (forall (x : Tensor A) (r : Z),
      sample_rate self = r -> finish x r = downmix self x)
  /\ (forall (file : AudioFile A) (so : Z) (ns : option Z) (src : Source A) (off num : Z),
        is_valid file = Ok true ->
        source_of torchaudio_info file = Ok src ->
        native_window self src so ns = Ok (off, num) ->
        off + num <= original_total_num_samples src ->
        sample_rate self = original_sample_rate src ->
        read file so ns
        = (d <- read_window torchaudio_load src off num ;;
           d' <- select_channel (channel src) d ;;
           downmix self d'))
  /\ (forall (x : Tensor A) (r : Z) (C T : nat),
        wf x -> shape x = [C; T] -> (C <= T)%nat -> r <> 0 -> sample_rate self = r ->
        read (in_memory x r None) 0 None = downmix self x
        /\ (mono self = false \/ (C <= 1)%nat ->
            read (in_memory x r None) 0 None = Ok x)).
Proof.
  split; [exact finish_same_rate | split].
  - intros file so ns src off num Ev Es Ew Hfit Er.
    rewrite (call_unfold file so ns src off num Ev Es Ew).
    destruct (Z.ltb_spec (original_total_num_samples src) (off + num)); [lia|].
    destruct (read_window torchaudio_load src off num) as [d|e]; simpl; [|reflexivity].
    destruct (select_channel (channel src) d) as [d'|e]; simpl; [|reflexivity].
    apply finish_same_rate, Er.
  - intros x r C T W Hs Hle Hr Er.
    assert (E : read (in_memory x r None) 0 None = downmix self x).
    { rewrite (read_whole x r C T W Hs Hle) by congruence.
      apply finish_same_rate, Er. }
    split; [exact E|].
    intros [Em|HC]; rewrite E.
    + apply downmix_mono_off, Em.
    + apply (downmix_single x C [T] Hs HC).
Qed.

(** The two rows of a stereo buffer, averaged sample by sample. *)
Lemma mean_of_two_rows (a b : list A) (T : nat) :
  length a = T -> length b = T ->
  map (fun j => mean_of 2 (strided 2 (numel [T]) j (a ++ b))) (seq 0 (numel [T]))
  = zip_with (fun p q => s_div (s_add p q) (s_of_nat 2)) a b.
Proof.
  intros La Lb; simpl numel; rewrite Nat.mul_1_r.
  apply nth_error_ext; intros j.
  rewrite nth_error_map, nth_error_seq.
  destruct (Nat.ltb_spec j T) as [Hj|Hj].
  - destruct (nth_error a j) as [p|] eqn:Ea;
      [|apply nth_error_None in Ea; lia].
    destruct (nth_error b j) as [q|] eqn:Eb;
      [|apply nth_error_None in Eb; lia].
    rewrite (nth_error_zip_with _ a b j p q Ea Eb).
    simpl option_map; f_equal; unfold strided; cbn [seq flat_map].
    rewrite (firstn_1_skipn (0 * T + j) (a ++ b) p)
      by (rewrite nth_error_app1 by lia; exact Ea).
    rewrite (firstn_1_skipn (1 * T + j) (a ++ b) q)
      by (rewrite nth_error_app2 by lia;
          replace (1 * T + j - length a)%nat with j by lia; exact Eb).
    reflexivity.
  - symmetry; apply nth_error_None.
    rewrite length_zip_with; lia.
Qed.

(** C7. With [mono] set, a buffer of [C > 1] channels is replaced by
    the mean across its channels at each time step, a buffer of one
    channel; the resampler, when it is called, is handed that mean; and
    the mono output of a 2-channel buffer [[a...], [b...]] is
    [(a + b) / 2] element by element. *)
Theorem mono_downmix :
  (forall (x : Tensor A) (C : nat) (rest : list nat),
      mono self = true -> shape x = C :: rest -> (1 < C)%nat ->
      downmix self x
      = Ok (mkTensor (1%nat :: rest)
              (map (fun j => mean_of C (strided C (numel rest) j (data x)))
                   (seq 0 (numel rest)))))
  /\ (forall (x : Tensor A) (C T c t : nat),
        wf x -> shape x = [C; T] -> (c < C)%nat -> (t < T)%nat ->
        nth_error (strided C (numel [T]) t (data x)) c = item2 x c t)
  /\ (forall (x : Tensor A) (C : nat) (rest : list nat) (r : Z),
        mono self = true -> shape x = C :: rest -> (1 < C)%nat ->
        sample_rate self <> r ->
        finish x r
        = (y <- librosa_resample
                  (mkTensor rest
                     (map (fun j => mean_of C (strided C (numel rest) j (data x)))
                          (seq 0 (numel rest))))
                  r (sample_rate self) ;;
           Ok (newaxis y)))
  /\ (forall (a b : list A) (T : nat),
        mono self = true -> length a = T -> length b = T ->
        downmix self (mkTensor [2%nat; T] (a ++ b))
        = Ok (mkTensor [1%nat; T]
                (zip_with (fun p q => s_div (s_add p q) (s_of_nat 2)) a b))).
Proof.
  split; [exact downmix_mean | split; [|split]].
  - intros x C T c t W Hs Hc Ht.
    unfold wf in W; rewrite Hs in W; simpl numel in *.
    rewrite Nat.mul_1_r in *.
    rewrite (nth_error_strided C T t c (data x) Ht W Hc).
    unfold item2; rewrite Hs.
    destruct (Nat.ltb_spec c C); [|lia].
    destruct (Nat.ltb_spec t T); [|lia].
    reflexivity.
  - intros x C rest r Em Hs HC Hr.
    unfold downmix_and_resample.
    rewrite (downmix_mean x C rest Em Hs HC); simpl bind.
    unfold resample; rewrite Em.
    destruct (Z.eqb_spec (sample_rate self) r) as [E|_]; [contradiction|].
    simpl negb; cbv iota.
    unfold index0; simpl shape; simpl data; cbv iota.
    rewrite firstn_all2 by (rewrite length_map, length_seq; lia).
    reflexivity.
  - intros a b T Em La Lb.
    rewrite (downmix_mean (mkTensor [2%nat; T] (a ++ b)) 2 [T] Em eq_refl) by lia.
    simpl data; rewrite (mean_of_two_rows a b T La Lb); reflexivity.
Qed.

(** ** Channel selection inside the read *)

(** The samples an in-memory source holds passed validation. *)
Lemma source_samples_shaped (file : AudioFile A) (src : Source A) (x : Tensor A) :
  is_valid file = Ok true ->
  source_of torchaudio_info file = Ok src ->
  original_samples src = Some x ->
  exists C T, shape x = [C; T] /\ (C <= T)%nat.
Proof.
  destruct file as [p|d]; simpl.
  - intros _ Es Ex.
    destruct (torchaudio_info p); simpl in Es; [|discriminate].
    injection Es as <-; discriminate.
  - destruct (key_samples d) as [s|].
    + destruct (negb _ || _) eqn:Et; [discriminate|].
      intros _ Es Ex.
      destruct (key_sample_rate d); [|discriminate].
      destruct (shape1 s); simpl in Es; [|discriminate].
      injection Es as <-; simpl in Ex; injection Ex as <-.
      apply shape_test_spec, Et.
    + destruct (key_audio d); [|discriminate].
      intros _ Es Ex.
      destruct (torchaudio_info s); simpl in Es; [|discriminate].
      injection Es as <-; discriminate.
Qed.

Lemma call_after_window (file : AudioFile A) (so : Z) (ns : option Z)
      (src : Source A) (off num : Z) (d : Tensor A) :
  is_valid file = Ok true ->
  source_of torchaudio_info file = Ok src ->
  native_window self src so ns = Ok (off, num) ->
  off + num <= original_total_num_samples src ->
  read_window torchaudio_load src off num = Ok d ->
  read file so ns
  = (d' <- select_channel (channel src) d ;; finish d' (original_sample_rate src)).
Proof.
  intros Ev Es Ew Hfit Ed.
  rewrite (call_unfold file so ns src off num Ev Es Ew).
  destruct (Z.ltb_spec (original_total_num_samples src) (off + num)); [lia|].
  rewrite Ed; reflexivity.
Qed.

Lemma finish_no_channel (n : nat) (r : Z) :
  sample_rate self = r ->
  finish (mkTensor [0%nat; n] []) r = Ok (mkTensor [0%nat; n] []).
Proof.
  intros E; rewrite (finish_same_rate _ r E).
  apply (downmix_single (mkTensor [0%nat; n] []) 0 [n] eq_refl); lia.
Qed.

(** C1 (amended). A read whose descriptor names channel [c], counted
    from 1, of the [C] channels of its source hands the downmix and
    resample step that channel alone, row [c - 1] of the window, in
    shape [(1, length)].  The selection is a slice: an index beyond [C]
    raises nothing, it selects no channel, and the read goes on with a
    [(0, length)] buffer, which it returns when no resampling is due. *)
Theorem channel_selection :
  (forall (file : AudioFile A) (so : Z) (ns : option Z) (src : Source A)
          (off num : Z) (d : Tensor A) (C n : nat) (c : Z),
      is_valid file = Ok true ->
      source_of torchaudio_info file = Ok src ->
      native_window self src so ns = Ok (off, num) ->
      off + num <= original_total_num_samples src ->
      read_window torchaudio_load src off num = Ok d ->
      shape d = [C; n] ->
      channel src = Some c ->
      (1 <= c <= Z.of_nat C ->
       read file so ns
       = finish (mkTensor [1%nat; n] (chunk n (Z.to_nat (c - 1)) (data d)))
           (original_sample_rate src))
      /\ (Z.of_nat C < c ->
          read file so ns = finish (mkTensor [0%nat; n] []) (original_sample_rate src)
          /\ (sample_rate self = original_sample_rate src ->
              read file so ns = Ok (mkTensor [0%nat; n] []))))
  /\ (forall (d : Tensor A) (C n i t : nat),
        shape d = [C; n] -> (i < C)%nat -> (t < n)%nat ->
        item2 (mkTensor [1%nat; n] (chunk n i (data d))) 0 t = item2 d i t).
Proof.
  split; [|exact item2_selected].
  intros file so ns src off num d C n c Ev Es Ew Hfit Ed Hs Ec.
  pose proof (call_after_window file so ns src off num d Ev Es Ew Hfit Ed) as E.
  rewrite Ec in E.
  split.
  - intros Hc; rewrite E, (select_channel_named d C n c Hs Hc); reflexivity.
  - intros Hc.
    assert (E' : read file so ns
                 = finish (mkTensor [0%nat; n] []) (original_sample_rate src))
      by (rewrite E, (select_channel_beyond d C n c Hs Hc); reflexivity).
    split; [exact E'|].
    intros Er; rewrite E'; apply finish_no_channel, Er.
Qed.

(** ** An offset past the end *)

(** C10 (amended). For an in-memory descriptor read without
    [num_samples], when the rounded native offset exceeds the native
    total, the default native length is negative, the bounds check
    passes, and the window is an empty [(C, 0)] buffer: nothing is
    raised up to there.  When the native rate is the target rate the
    read returns an empty buffer, of shape [(C', 0)] where [C'] is [C]
    unless a channel is selected or the channels are downmixed;
    otherwise the empty buffer goes on to the resampling step. *)
Theorem offset_past_end (x : Tensor A) (r : Z) (c : option Z) (C T : nat)
        (so off : Z) :
  shape x = [C; T] -> (C <= T)%nat ->
  Spec.to_native_offset so r (sample_rate self) = Ok off ->
  Z.of_nat T < off ->
  let src := mkSource (Some x) "" r (Z.of_nat T) c in
  let num := Z.of_nat T - off in
  native_window self src so None = Ok (off, num)
  /\ num < 0
  /\ off + num = original_total_num_samples src
  /\ (original_total_num_samples src <? off + num) = false
  /\ read_window torchaudio_load src off num = Ok (mkTensor [C; 0%nat] [])
  /\ read (in_memory x r c) so None
     = (d <- select_channel c (mkTensor [C; 0%nat] []) ;; finish d r)
  /\ (sample_rate self = r ->
      exists C' : nat,
        read (in_memory x r c) so None = Ok (mkTensor [C'; 0%nat] [])
        /\ (c = None -> mono self = false \/ (C <= 1)%nat -> C' = C)).
Proof.
  intros Hs Hle Eo Hpast src num.
  assert (Ew : native_window self src so None = Ok (off, num))
    by (apply native_window_spec; split; [exact Eo | reflexivity]).
  assert (Ed : read_window torchaudio_load src off num = Ok (mkTensor [C; 0%nat] []))
    by (unfold read_window; simpl; apply (slice_time_beyond x C T); [exact Hs | lia | lia]).
  assert (Er : read (in_memory x r c) so None
               = (d <- select_channel c (mkTensor [C; 0%nat] []) ;; finish d r)).
  { apply (call_after_window _ so None src off num _
             (is_valid_in_memory x r c C T Hs Hle)
             (source_of_in_memory x r c C T Hs) Ew); [|exact Ed].
    subst src num; simpl; lia. }
  split; [exact Ew|].
  split; [subst num; lia|].
  split; [subst src num; simpl; lia|].
  split; [apply Z.ltb_ge; subst src num; simpl; lia|].
  split; [exact Ed|].
  split; [exact Er|].
  intros Esr; rewrite Er.
  destruct (select_channel c (mkTensor [C; 0%nat] [])) as [d'|e] eqn:Ec.
  - destruct (select_channel_shape c (mkTensor [C; 0%nat] []) d' C 0 eq_refl Ec) as (C1 & Hs1 & _ & Hd1).
    specialize (Hd1 eq_refl eq_refl).
    simpl bind; rewrite (finish_same_rate d' r Esr).
    destruct (downmix self d') as [y|e] eqn:Ey.
    + destruct (downmix_shape d' y C1 0 Hs1 Ey) as (C' & Hs' & _ & _ & Hid & Hd').
      specialize (Hd' eq_refl Hd1).
      exists C'; split.
      * destruct y as [shp dat]; simpl in *; subst; reflexivity.
      * intros -> Hm; simpl in Ec; injection Ec as <-.
        simpl in Hs1; injection Hs1 as <-.
        rewrite (Hid Hm) in Hs'; simpl in Hs'; congruence.
    + exfalso; unfold downmix, mean_dim0_keepdim in Ey; rewrite Hs1 in Ey.
      destruct (mono self); [|discriminate].
      destruct (1 <? C1)%nat; discriminate.
  - exfalso; destruct c as [c|]; simpl in Ec; discriminate.
Qed.

(** ** The layout of what a read returns *)

Lemma read_window_shape (file : AudioFile A) (src : Source A) (off num : Z)
      (d : Tensor A) :
  decodes_2d torchaudio_load ->
  is_valid file = Ok true ->
  source_of torchaudio_info file = Ok src ->
  read_window torchaudio_load src off num = Ok d ->
  exists C n, shape d = [C; n].
Proof.
  intros Hload Ev Es; unfold read_window.
  destruct (original_samples src) as [x|] eqn:Ex.
  - destruct (source_samples_shaped file src x Ev Es Ex) as (C & T & Hs & _).
    intros Ed; apply slice_time_shape in Ed.
    destruct Ed as (d0 & d1 & n & rest & Hx & Hd & _).
    rewrite Hs in Hx; injection Hx as <- <- <-.
    exists C, n; exact Hd.
  - intros Ed; apply Hload in Ed.
    destruct (shape d) as [|C [|n [|]]]; try discriminate.
    exists C, n; reflexivity.
Qed.




End ReaderFacts.

(** C4. For a valid descriptor [get_num_samples] is
    [native_total_samples * target_sample_rate / native_sample_rate]
    with Python's true division and no rounding: three samples at
    2 Hz are 1.5 samples at 1 Hz, where the offset of a read would be
    rounded to 2. *)
Theorem get_num_samples_unrounded :
  (forall (A : Type) (info : string -> result AudioMetaData) (self : Audio)
          (file : AudioFile A) (src : Source A),
      is_valid file = Ok true ->
      source_of info file = Ok src ->
      get_num_samples info self file
      = Py.truediv (original_total_num_samples src * sample_rate self)
          (original_sample_rate src))
  /\ (forall (A : Type) (info : string -> result AudioMetaData) (self : Audio)
             (x : Tensor A) (r : Z) (c : option Z) (C T : nat),
        shape x = [C; T] -> (C <= T)%nat ->
        get_num_samples info self (in_memory x r c)
        = Py.truediv (Z.of_nat T * sample_rate self) r)
  /\ (let self := mkAudio 1 true in
      let file := in_memory Example.stereo 2 None in
      let one_and_a_half := S754_finite false 6755399441055744 (-52) in
      get_num_samples Example.info self file = Ok one_and_a_half
      /\ Py.is_integer one_and_a_half = false
      /\ Spec.to_native_offset 3 1 2 = Ok 2).
Proof.
  split; [|split].
  - intros A info self file src Ev Es.
    rewrite (get_num_samples_spec info self file src Ev Es); reflexivity.
  - intros A info self x r c C T Hs Hle.
    rewrite (get_num_samples_spec info self _ _
               (is_valid_in_memory x r c C T Hs Hle)
               (source_of_in_memory info x r c C T Hs)).
    reflexivity.
  - vm_compute; repeat split.
Qed.

(** ** The laws of the real numbers *)

Module RealFacts.

Import Reals.

Lemma real_division_scales : division_scales R (H := Real.ops).
Proof.
  intros u d; simpl; unfold Rdiv; ring.
Qed.

End RealFacts.

(** ** The reader at work *)

(** The specification's example: channel 2 of a 3-channel source is the
    row of index 1, in shape (1, length). *)
Example read_second_of_three :
  Example.read (mkAudio 2 false) (in_memory Example.three_channels 2 (Some 2)) 0 None
  = Ok (Example.buffer 1 3 [4; 5; 6]).
Proof. vm_compute; reflexivity. Qed.

(** Stereo [[1, 2, 3], [4, 5, 6]] to mono: [[2.5, 3.5, 4.5]]. *)
Example read_stereo_as_mono :
  Example.read (mkAudio 2 true) (in_memory Example.stereo 2 None) 0 None
  = Ok (mkTensor [1%nat; 3%nat]
          (map (fun n => SFdiv Float32.prec Float32.emax (Float32.of_Z n) (Float32.of_Z 2))
               [5; 7; 9]%Z)).
Proof. vm_compute; reflexivity. Qed.

(** The three shapes of a descriptor: the file, channel 2 of the file,
    and the second sample of a buffer in memory. *)
Example read_three_descriptors :
  Example.read (mkAudio 2 false) (PathFile "stereo.wav") 0 None = Ok Example.stereo
  /\ Example.read (mkAudio 2 false) (path_in_dict "stereo.wav" (Some 2)) 1 (Some 2)
     = Ok (Example.buffer 1 2 [5; 6])
  /\ Example.read (mkAudio 2 false) (in_memory Example.stereo 2 None) 1 (Some 1)
     = Ok (Example.buffer 2 1 [2; 5]).
Proof. repeat split; vm_compute; reflexivity. Qed.

(** A buffer with more channels than samples is refused. *)
Example transposed_buffer_refused :
  Example.read (mkAudio 2 true) (in_memory Example.transposed 2 None) 0 None
  = Raise ShapeError.
Proof. vm_compute; reflexivity. Qed.

(** A negative offset counts from the end, as a Python slice does. *)
Example read_negative_offset :
  Example.read (mkAudio 2 false) (in_memory Example.stereo 2 None) (-1) None
  = Ok (Example.buffer 2 1 [3; 6]).
Proof. vm_compute; reflexivity. Qed.

Lemma stub_load_decodes_2d : decodes_2d Example.load.
Proof.
  intros path off num d; unfold Example.load, Stub.load, Example.disk.
  destruct (String.eqb path "stereo.wav"); [|discriminate].
  destruct (_ && _); [|discriminate].
  intros E; apply slice_time_shape in E.
  destruct E as (d0 & d1 & n & rest & Hx & Hd & _).
  injection Hx as <- <- <-; rewrite Hd; reflexivity.
Qed.

Lemma stub_resample_keeps_rank (A : Type) : keeps_rank (@Stub.resample A).
Proof.
  intros y a b z E; unfold Stub.resample in E.
  destruct (existsb _ _); [discriminate|].
  injection E as <-; reflexivity.
Qed.

Lemma stub_resample_flat_to_flat (A : Type) : flat_to_flat (@Stub.resample A).
Proof.
  intros y a b z n E Hs; unfold Stub.resample in E.
  destruct (existsb _ _); [discriminate|].
  injection E as <-; exists n; exact Hs.
Qed.

(** C1, at work: channel 2 of the three. *)
Lemma channel_selection_witness :
  Example.read (mkAudio 2 false) (in_memory Example.three_channels 2 (Some 2)) 0 None
  = Ok (Example.buffer 1 3 [4; 5; 6]).
Proof.
  destruct (channel_selection (H := Float32.ops) Example.info Example.load Stub.resample
              (mkAudio 2 false)) as [Hsel _].
  assert (Hfit : 0 + 3 <= 3) by lia.
  assert (Hc : 1 <= 2 <= Z.of_nat 3) by (simpl; lia).
  destruct (Hsel (in_memory Example.three_channels 2 (Some 2)) 0 None
              (mkSource (Some Example.three_channels) "" 2 3 (Some 2)) 0 3
              Example.three_channels 3%nat 3%nat 2
              eq_refl eq_refl eq_refl Hfit eq_refl eq_refl eq_refl)
    as [Hnamed _].
  unfold Example.read; rewrite (Hnamed Hc).
  vm_compute; reflexivity.
Defined.

(** C3, at work: offset 3 and length 2 at 16 kHz, in a source at 44.1 kHz. *)
Lemma window_translation_witness :
  native_window (mkAudio 16000 true)
    (mkSource (Some Example.stereo) "" 44100 3 None) 3 (Some 2)
  = Ok (8, 6).
Proof.
  destruct (window_translation (H := Float32.ops) Example.info Example.load Stub.resample
              (mkAudio 16000 true)) as [Hw _].
  apply Hw; split; vm_compute; reflexivity.
Defined.

(** C6, at work: the stereo buffer read whole at its own rate. *)
Lemma same_rate_passthrough_witness :
  Example.read (mkAudio 2 false) (in_memory Example.stereo 2 None) 0 None
  = Ok Example.stereo.
Proof.
  destruct (same_rate_passthrough (H := Float32.ops) Example.info Example.load Stub.resample
              (mkAudio 2 false)) as (_ & _ & Hwhole).
  assert (Hle : (2 <= 3)%nat) by lia.
  assert (Hr : 2 <> 0) by discriminate.
  destruct (Hwhole Example.stereo 2 2%nat 3%nat eq_refl eq_refl Hle Hr eq_refl)
    as [_ Hid].
  apply Hid; left; reflexivity.
Defined.

(** C7, at work: the mean of rows [1, 2, 3] and [4, 5, 6]. *)
Lemma mono_downmix_witness :
  downmix (H := Float32.ops) (mkAudio 2 true) Example.stereo
  = Ok (mkTensor [1%nat; 3%nat]
          (map (fun n => SFdiv Float32.prec Float32.emax (Float32.of_Z n) (Float32.of_Z 2))
               [5; 7; 9]%Z)).
Proof.
  destruct (mono_downmix (H := Float32.ops) Stub.resample (mkAudio 2 true))
    as (_ & _ & _ & Hstereo).
  change Example.stereo
    with (mkTensor [2%nat; 3%nat]
            (map Float32.of_Z [1; 2; 3] ++ map Float32.of_Z [4; 5; 6])).
  rewrite (Hstereo (map Float32.of_Z [1; 2; 3]) (map Float32.of_Z [4; 5; 6]) 3%nat
             eq_refl eq_refl eq_refl).
  vm_compute; reflexivity.
Defined.

(** C2, at work: two samples from offset 2 of a 3-sample buffer. *)
Lemma overflow_rejected_witness :
  Example.read (mkAudio 2 false) (in_memory Example.stereo 2 None) 2 (Some 2)
  = Raise RangeOverflowError.
Proof.
  refine (proj1 (overflow_rejected (H := Float32.ops) Example.info Example.load Stub.resample
                   (mkAudio 2 false) (in_memory Example.stereo 2 None) 2 (Some 2)
                   (mkSource (Some Example.stereo) "" 2 3 None) 2 2 _ _ _ _)).
  - reflexivity.
  - reflexivity.
  - vm_compute; reflexivity.
  - simpl; lia.
Defined.

(** C8, at work on the stereo buffer. *)
Lemma rms_normalize_scales_witness :
  exists y : Tensor spec_float,
    rms_normalize (H := Float32.ops) Example.stereo = Ok y
    /\ shape y = [2%nat; 3%nat]
    /\ item2 y 1 2
       = Some (SFdiv Float32.prec Float32.emax (Float32.of_Z 6)
                 (SFadd Float32.prec Float32.emax
                    (rms_of_channel (H := Float32.ops) Example.stereo 1)
                    (s_eps (SampleOps := Float32.ops)))).
Proof.
  destruct (rms_normalize_scales (H := Float32.ops) Example.stereo 2 3
              eq_refl eq_refl) as (y & Ey & Hs & _ & Hy).
  exists y; split; [exact Ey|]; split; [exact Hs|].
  destruct (Hy 1%nat 2%nat (Float32.of_Z 6) eq_refl) as [E _].
  exact E.
Defined.

(** C10, at work: offset 5 into a 3-sample buffer. *)
Lemma offset_past_end_witness :
  Example.read (mkAudio 2 false) (in_memory Example.stereo 2 None) 5 None
  = Ok (mkTensor [2%nat; 0%nat] []).
Proof.
  destruct (offset_past_end (H := Float32.ops) Example.info Example.load Stub.resample
              (mkAudio 2 false) Example.stereo 2 None 2 3 5 5
              eq_refl (le_S 2 2 (le_n 2)) eq_refl eq_refl)
    as (_ & _ & _ & _ & _ & _ & Hread).
  destruct (Hread eq_refl) as (C' & E & HC).
  rewrite <- (HC eq_refl (or_introl eq_refl)).
  exact E.
Defined.


(** C1, refuted as stated: channel 4 of a 3-channel source raises
    nothing; the read returns a buffer, with no channel in it. *)
Lemma channel_out_of_range_returns :
  Example.read (mkAudio 2 true) (in_memory Example.three_channels 2 (Some 4)) 0 None
  = Ok (mkTensor [0%nat; 3%nat] []).
Proof. vm_compute; reflexivity. Qed.


(** C10, refuted as stated: with the offset past the end and no
    [num_samples], a read that has to resample to mono raises
    [IndexError] when no channel is selected, and the buffer a mono read
    returns at the native rate has one channel, not the two of its
    source. *)
Lemma offset_past_end_may_raise :
  Example.read (mkAudio 1 true) (in_memory Example.stereo 2 (Some 3)) 2 None
  = Raise IndexError
  /\ Example.read (mkAudio 2 true) (in_memory Example.stereo 2 None) 5 None
     = Ok (mkTensor [1%nat; 0%nat] []).
Proof. split; vm_compute; reflexivity. Qed.

(** * More of the reader *)

(** ** True division that comes out even

    When [b] divides [a] and the quotient fits the 53 bits of a float,
    [a / b] is that quotient and [round] gives it back. *)

Lemma digits2_pos_size (p : positive) : digits2_pos p = Pos.size p.
Proof. induction p; simpl; congruence. Qed.

Lemma Zdigits2_log2 (p : positive) : Zdigits2 (Zpos p) = Z.log2 (Zpos p) + 1.
Proof.
  simpl; rewrite digits2_pos_size.
  destruct p; simpl; try rewrite Pos.add_1_r; reflexivity.
Qed.

Lemma Zdigits2_mul_pow2 (p : positive) (s : Z) :
  0 <= s -> Zdigits2 (Zpos p * 2 ^ s) = Zdigits2 (Zpos p) + s.
Proof.
  intros Hs.
  assert (Hpos : 0 < Zpos p * 2 ^ s)
    by (apply Z.mul_pos_pos; [lia | apply Z.pow_pos_nonneg; lia]).
  destruct (Zpos p * 2 ^ s) as [|q|q] eqn:E; try lia.
  rewrite !Zdigits2_log2, <- E, Z.log2_mul_pow2 by lia.
  lia.
Qed.

Lemma shr_1_even (a : Z) :
  0 < a -> shr_1 (Build_shr_record (2 * a) false false) = Build_shr_record a false false.
Proof. destruct a; simpl; intros; try lia; reflexivity. Qed.

(** Shifting out [n] zero bits loses nothing. *)
Lemma iter_shr_1_exact (n : positive) (a : Z) :
  0 < a ->
  iter_pos shr_1 n (Build_shr_record (a * 2 ^ Zpos n) false false)
  = Build_shr_record a false false.
Proof.
  revert a; induction n as [n IH|n IH|]; intros a Ha; cbn [iter_pos].
  - assert (Hp : 0 < 2 ^ Zpos n) by (apply Z.pow_pos_nonneg; lia).
    replace (a * 2 ^ Zpos n~1) with (2 * (a * 2 ^ Zpos n * 2 ^ Zpos n)).
    + rewrite shr_1_even, IH, IH by nia; reflexivity.
    + change (Zpos n~1) with (2 * Zpos n + 1).
      rewrite Z.pow_add_r, Z.pow_twice_r by lia; ring.
  - assert (Hp : 0 < 2 ^ Zpos n) by (apply Z.pow_pos_nonneg; lia).
    replace (a * 2 ^ Zpos n~0) with (a * 2 ^ Zpos n * 2 ^ Zpos n).
    + rewrite IH, IH by nia; reflexivity.
    + change (Zpos n~0) with (2 * Zpos n).
      rewrite Z.pow_twice_r; ring.
  - replace (a * 2 ^ 1) with (2 * a) by ring.
    apply shr_1_even, Ha.
Qed.

Lemma fexp_small (d : Z) : d <= 53 -> fexp Py.prec Py.emax d <= 0.
Proof. unfold fexp, emin, Py.prec, Py.emax; lia. Qed.

(** The last step of a rounding that has nothing left to shift out. *)
Lemma round_last_step (sx : bool) (M e : Z) (m : positive) :
  M = Zpos m ->
  fexp Py.prec Py.emax (Zdigits2 M + e) - e <= 0 ->
  e <= 0 ->
  (let '(mrs, e') :=
     shr (Build_shr_record M false false) e
       (fexp Py.prec Py.emax (Zdigits2 M + e) - e) in
   match shr_m mrs with
   | Z0 => S754_zero sx
   | Zpos m0 =>
       if e' <=? Py.emax - Py.prec then S754_finite sx m0 e' else S754_infinity sx
   | Zneg _ => S754_nan
   end) = S754_finite sx m e.
Proof.
  intros -> Hn He.
  destruct (fexp Py.prec Py.emax (Zdigits2 (Zpos m) + e) - e) as [|n|n];
    try lia; cbn [shr shr_m];
    (destruct (Z.leb_spec e (Py.emax - Py.prec));
     [reflexivity | unfold Py.emax, Py.prec in *; lia]).
Qed.

(** Rounding a mantissa of at most 53 significant bits, followed by
    [s] zero bits, keeps its value. *)
Lemma binary_round_aux_exact (sx : bool) (p : positive) (s : Z) :
  Zpos p < 2 ^ 53 -> 0 <= s ->
  exists (m : positive) (j : Z),
    0 <= j /\ Zpos m = Zpos p * 2 ^ j
    /\ binary_round_aux Py.prec Py.emax sx (Zpos p * 2 ^ s) (- s) loc_Exact
       = S754_finite sx m (- j).
Proof.
  intros Hp Hs.
  assert (Hd : Zdigits2 (Zpos p) <= 53)
    by (rewrite Zdigits2_log2; apply Z.log2_lt_pow2 in Hp; lia).
  pose proof (fexp_small _ Hd) as Hf.
  assert (Hshift : forall j, 0 <= j ->
            fexp Py.prec Py.emax (Zdigits2 (Zpos p * 2 ^ j) + - j) - - j
            = fexp Py.prec Py.emax (Zdigits2 (Zpos p)) + j).
  { intros j Hj; rewrite Zdigits2_mul_pow2 by lia.
    replace (Zdigits2 (Zpos p) + j + - j) with (Zdigits2 (Zpos p)) by lia; lia. }
  assert (Hpos : forall j, 0 <= j -> exists m, Zpos p * 2 ^ j = Zpos m).
  { intros j Hj.
    assert (0 < Zpos p * 2 ^ j)
      by (apply Z.mul_pos_pos; [lia | apply Z.pow_pos_nonneg; lia]).
    destruct (Zpos p * 2 ^ j) as [|m|m]; try lia; exists m; reflexivity. }
  unfold binary_round_aux, shr_fexp.
  cbn [shr_record_of_loc].
  pose proof (Hshift s Hs) as Hn.
  remember (Zpos p * 2 ^ s) as M eqn:EM.
  destruct (fexp Py.prec Py.emax (Zdigits2 M + - s) - - s) as [|n|n] eqn:En.
  - (* nothing to shift out *)
    cbn [shr loc_of_shr_record shr_m shr_r shr_s round_nearest_even].
    destruct (Hpos s Hs) as (m & Em).
    exists m, s; split; [exact Hs|]; split; [congruence|].
    apply round_last_step; [congruence | lia | lia].
  - (* [n] of the [s] zero bits go *)
    assert (Hns : Zpos n <= s) by lia.
    set (j := s - Zpos n).
    assert (Hj : 0 <= j) by (subst j; lia).
    destruct (Hpos j Hj) as (m & Em).
    cbn [shr].
    assert (EM' : M = Zpos m * 2 ^ Zpos n).
    { rewrite EM, <- Em, <- Z.mul_assoc, <- Z.pow_add_r by lia.
      f_equal; f_equal; subst j; lia. }
    rewrite EM', iter_shr_1_exact by lia.
    cbn [loc_of_shr_record shr_m shr_r shr_s round_nearest_even].
    replace (- s + Zpos n) with (- j) by (subst j; lia).
    exists m, j; split; [exact Hj|]; split; [congruence|].
    apply round_last_step; [reflexivity | | lia].
    rewrite <- Em, (Hshift j Hj); subst j; lia.
  - (* the mantissa is short of bits *)
    cbn [shr loc_of_shr_record shr_m shr_r shr_s round_nearest_even].
    destruct (Hpos s Hs) as (m & Em).
    exists m, s; split; [exact Hs|]; split; [congruence|].
    apply round_last_step; [congruence | lia | lia].
Qed.

Lemma div_eucl_pair (a b : Z) : Z.div_eucl a b = (a / b, a mod b).
Proof. unfold Z.div, Z.modulo; destruct (Z.div_eucl a b); reflexivity. Qed.

(** The quotient of [p * q] by [q], before rounding: [p] followed by
    zero bits, and no remainder. *)
Lemma SFdiv_core_exact (p q : positive) :
  exists s : Z,
    0 <= s
    /\ SFdiv_core_binary Py.prec Py.emax (Zpos (p * q)) 0 (Zpos q) 0
       = (Zpos p * 2 ^ s, - s, loc_Exact).
Proof.
  unfold SFdiv_core_binary.
  set (e' := Z.min _ (0 - 0)).
  assert (He : e' <= 0) by (subst e'; lia).
  exists (- e'); split; [lia|].
  replace (0 - 0 - e') with (- e') by lia.
  assert (Em : match - e' with
               | Z0 => Zpos (p * q)
               | Zpos _ => Z.shiftl (Zpos (p * q)) (- e')
               | Zneg _ => 0
               end = Zpos p * 2 ^ (- e') * Zpos q).
  { destruct (- e') as [|n|n] eqn:E.
    - rewrite Pos2Z.inj_mul, Z.pow_0_r; lia.
    - rewrite Z.shiftl_mul_pow2, Pos2Z.inj_mul by lia.
      rewrite <- !Z.mul_assoc; f_equal; apply Z.mul_comm.
    - lia. }
  rewrite Em, div_eucl_pair, Z.div_mul, Z.mod_mul by lia.
  replace (- - e') with e' by lia.
  unfold new_location, new_location_even, new_location_odd.
  destruct (Z.even (Zpos q)); reflexivity.
Qed.

Lemma SFdiv_exact (s1 s2 : bool) (p q : positive) :
  Zpos p < 2 ^ 53 ->
  exists (m : positive) (j : Z),
    0 <= j /\ Zpos m = Zpos p * 2 ^ j
    /\ SFdiv Py.prec Py.emax (S754_finite s1 (p * q) 0) (S754_finite s2 q 0)
       = S754_finite (xorb s1 s2) m (- j).
Proof.
  intros Hp; unfold SFdiv.
  destruct (SFdiv_core_exact p q) as (s & Hs & ->).
  apply binary_round_aux_exact; assumption.
Qed.

Lemma round_exact (sx : bool) (m p : positive) (j : Z) :
  0 <= j -> Zpos m = Zpos p * 2 ^ j ->
  Py.round (S754_finite sx m (- j)) = Ok (if sx then Zneg p else Zpos p).
Proof.
  intros Hj Em; unfold Py.round.
  assert (E : (if 0 <=? - j then Zpos m * 2 ^ (- j)
               else Py.round_half_even (Zpos m) (2 ^ (- - j))) = Zpos p).
  { destruct (Z.leb_spec 0 (- j)).
    - replace j with 0 in * by lia; simpl in *; lia.
    - assert (Hp : 0 < 2 ^ j) by (apply Z.pow_pos_nonneg; lia).
      unfold Py.round_half_even.
      replace (- - j) with j by lia.
      rewrite Em, Z.div_mul, Z.mod_mul by lia.
      destruct (Z.compare_spec (2 * 0) (2 ^ j)); try lia; reflexivity. }
  rewrite E; destruct sx; reflexivity.
Qed.

Lemma is_integer_exact (sx : bool) (m p : positive) (j : Z) :
  0 <= j -> Zpos m = Zpos p * 2 ^ j ->
  Py.is_integer (S754_finite sx m (- j)) = true.
Proof.
  intros Hj Em; unfold Py.is_integer.
  destruct (Z.leb_spec 0 (- j)); [reflexivity|].
  replace (- - j) with j by lia.
  rewrite Em, Z.mod_mul by (apply Z.pow_nonzero; lia); reflexivity.
Qed.

(** [k * b / b] is the float that holds [k]. *)
Lemma truediv_exact (k b : Z) :
  b <> 0 -> Z.abs k < 2 ^ 53 ->
  exists q : Py.float,
    Py.truediv (k * b) b = Ok q /\ Py.round q = Ok k /\ Py.is_integer q = true.
Proof.
  intros Hb Hk; unfold Py.truediv.
  destruct (Z.eqb_spec b 0) as [|_]; [contradiction|].
  destruct k as [|p|p].
  - exists (S754_zero (b <? 0)); destruct b; try contradiction; simpl; auto.
  - destruct b as [|q|q]; try contradiction; simpl Z.mul; simpl Py.float_of_int.
    + destruct (SFdiv_exact false false p q Hk) as (m & j & Hj & Em & ->).
      eexists; split; [reflexivity|]; split;
        [apply (round_exact false m p j Hj Em) | apply (is_integer_exact false m p j Hj Em)].
    + destruct (SFdiv_exact true true p q Hk) as (m & j & Hj & Em & ->).
      eexists; split; [reflexivity|]; split;
        [apply (round_exact false m p j Hj Em) | apply (is_integer_exact false m p j Hj Em)].
  - destruct b as [|q|q]; try contradiction; simpl Z.mul; simpl Py.float_of_int.
    + destruct (SFdiv_exact true false p q Hk) as (m & j & Hj & Em & ->).
      eexists; split; [reflexivity|]; split;
        [apply (round_exact true m p j Hj Em) | apply (is_integer_exact true m p j Hj Em)].
    + destruct (SFdiv_exact false true p q Hk) as (m & j & Hj & Em & ->).
      eexists; split; [reflexivity|]; split;
        [apply (round_exact true m p j Hj Em) | apply (is_integer_exact true m p j Hj Em)].
Qed.

(** The rounded quotient of a multiple of [b] by [b]. *)
Lemma rounded_quotient_exact (a b k : Z) :
  b <> 0 -> a = k * b -> Z.abs k < 2 ^ 53 ->
  (q <- Py.truediv a b ;; Py.round q) = Ok k.
Proof.
  intros Hb -> Hk.
  destruct (truediv_exact k b Hb Hk) as (q & -> & Hr & _); exact Hr.
Qed.


(** ** More on slices *)

Lemma slice_bound_le (i : Z) (len : nat) : (Py.slice_bound i len <= len)%nat.
Proof.
  unfold Py.slice_bound; destruct (Z.ltb_spec i 0); lia.
Qed.

Lemma slice_indices_fit (start stop : Z) (len lo n : nat) :
  Py.slice_indices start stop len = (lo, n) -> (lo + n <= len)%nat.
Proof.
  unfold Py.slice_indices; intros [= <- <-].
  pose proof (slice_bound_le start len); pose proof (slice_bound_le stop len); lia.
Qed.

Section SliceContent.

Context {A : Type}.

(** A slice of the time axis holds the samples from its first index on. *)
Lemma slice_time_content (x : Tensor A) (C T : nat) (start stop : Z) (lo n : nat) :
  wf x -> shape x = [C; T] ->
  Py.slice_indices start stop T = (lo, n) ->
  exists d : Tensor A,
    slice_time x start stop = Ok d
    /\ shape d = [C; n]
    /\ wf d
    /\ forall c t : nat, (c < C)%nat -> (t < n)%nat ->
                         item2 d c t = item2 x c (lo + t).
Proof.
  unfold wf; intros W Hs Ei; rewrite Hs in W; simpl in W; rewrite Nat.mul_1_r in W.
  pose proof (slice_indices_fit start stop T lo n Ei) as Hfit.
  unfold slice_time; rewrite Hs, Ei; simpl numel.
  eexists; split; [reflexivity|]; simpl shape; simpl data.
  rewrite !Nat.mul_1_r.
  assert (U : uniform (fun i => firstn n (skipn lo (chunk T i (data x)))) C n).
  { intros i Hi.
    rewrite length_firstn, length_skipn, length_chunk by nia; lia. }
  split; [reflexivity|]; split.
  - simpl; rewrite (length_flat_map_uniform _ C n U); lia.
  - intros c t Hc Ht; unfold item2; simpl shape; rewrite Hs.
    assert (Hcb : (c <? C)%nat = true) by (apply Nat.ltb_lt, Hc).
    assert (Htb : (t <? n)%nat = true) by (apply Nat.ltb_lt, Ht).
    assert (Hlb : (lo + t <? T)%nat = true) by (apply Nat.ltb_lt; lia).
    rewrite Hcb, Htb, Hlb; simpl andb; cbv iota; simpl data.
    rewrite (nth_error_flat_map_uniform _ C n c t U Hc Ht).
    rewrite nth_error_firstn, Htb, (nth_error_skipn lo).
    rewrite nth_error_chunk by lia.
    f_equal; lia.
Qed.

Lemma select_channel_none (d : Tensor A) (C n : nat) (c : Z) :
  shape d = [C; n] -> c = 0 \/ c <= - Z.of_nat C ->
  select_channel (Some c) d = Ok (mkTensor [0%nat; n] []).
Proof.
  intros Hs Hc; unfold select_channel, slice_channel; rewrite Hs.
  assert (E : snd (Py.slice_indices (c - 1) c C) = 0%nat).
  { unfold Py.slice_indices, Py.slice_bound; simpl snd.
    destruct (Z.ltb_spec (c - 1) 0); destruct (Z.ltb_spec c 0); lia. }
  destruct (Py.slice_indices (c - 1) c C) as [lo k]; simpl in E; subst k.
  reflexivity.
Qed.

Lemma select_channel_from_end (d : Tensor A) (C n : nat) (c : Z) :
  shape d = [C; n] -> - Z.of_nat C < c < 0 ->
  select_channel (Some c) d
  = Ok (mkTensor [1%nat; n] (chunk n (Z.to_nat (Z.of_nat C + c - 1)) (data d))).
Proof.
  intros Hs Hc; unfold select_channel, slice_channel; rewrite Hs.
  assert (E : Py.slice_indices (c - 1) c C = (Z.to_nat (Z.of_nat C + c - 1), 1%nat)).
  { unfold Py.slice_indices, Py.slice_bound.
    destruct (Z.ltb_spec (c - 1) 0); destruct (Z.ltb_spec c 0); try lia.
    f_equal; lia. }
  rewrite E; unfold chunk; simpl numel.
  rewrite !Nat.mul_1_r, Nat.mul_1_l; reflexivity.
Qed.

End SliceContent.

(** ** What a read consults, and what it raises *)

Section Collaboration.

Context {A : Type} `{SampleOps A}.

Variable torchaudio_info : string -> result AudioMetaData.
Variable torchaudio_load : string -> Z -> Z -> result (Tensor A).
Variable librosa_resample : Tensor A -> Z -> Z -> result (Tensor A).
Variable self : Audio.

Local Abbreviation read := (__call__ torchaudio_info torchaudio_load librosa_resample self).
Local Abbreviation finish := (downmix_and_resample librosa_resample self).

(** X1. A mapping that holds samples is read from memory alone, also
    when it holds a path as well: neither the length query nor the read
    consults the probe or the decoder, so both give the same result
    whatever these two are. *)
Theorem in_memory_read_needs_no_file
        (info' : string -> result AudioMetaData)
        (load' : string -> Z -> Z -> result (Tensor A))
        (d : FileDict A) (s : Tensor A) (so : Z) (ns : option Z) :
  key_samples d = Some s ->
  read (DictFile d) so ns = __call__ info' load' librosa_resample self (DictFile d) so ns
  /\ get_num_samples torchaudio_info self (DictFile d)
     = get_num_samples info' self (DictFile d).
Proof.
  intros Es; split.
  - unfold __call__.
    destruct (is_valid (DictFile d)) as [b|e]; simpl bind; [|reflexivity].
    unfold source_of; rewrite Es.
    destruct (key_sample_rate d) as [r|]; simpl bind; [|reflexivity].
    destruct (shape1 s) as [total|e]; simpl bind; [|reflexivity].
    destruct (native_window self _ so ns) as [[off num]|e]; simpl bind; reflexivity.
  - unfold get_num_samples.
    destruct (is_valid (DictFile d)) as [b|e]; simpl bind; [|reflexivity].
    rewrite Es; reflexivity.
Qed.

(** X2. Failures surface unchanged and at once: a descriptor that fails
    validation fails the read and the length query with that same
    error; so does a path the probe fails on; the decoder is called with
    the path and the translated window, and its failure is the failure
    of the read. *)
Theorem errors_surface_unchanged (e : Exception) :
  (forall (file : AudioFile A) (so : Z) (ns : option Z),
      is_valid file = Raise e ->
      read file so ns = Raise e
      /\ get_num_samples torchaudio_info self file = Raise e)
  /\ (forall (path : string) (c : option Z) (so : Z) (ns : option Z),
        torchaudio_info path = Raise e ->
        read (PathFile path) so ns = Raise e
        /\ read (path_in_dict path c) so ns = Raise e
        /\ get_num_samples (A := A) torchaudio_info self (PathFile path) = Raise e
        /\ get_num_samples (A := A) torchaudio_info self (path_in_dict path c) = Raise e)
  /\ (forall (file : AudioFile A) (so : Z) (ns : option Z) (src : Source A)
             (off num : Z),
        is_valid file = Ok true ->
        source_of torchaudio_info file = Ok src ->
        original_samples src = None ->
        native_window self src so ns = Ok (off, num) ->
        off + num <= original_total_num_samples src ->
        torchaudio_load (audio_path src) off num = Raise e ->
        read file so ns = Raise e).
Proof.
  split; [|split].
  - intros file so ns Ev; unfold __call__, get_num_samples; rewrite Ev; auto.
  - intros path c so ns Ei.
    unfold __call__, get_num_samples, path_in_dict; simpl; rewrite Ei; auto.
  - intros file so ns src off num Ev Es Eo Ew Hfit El.
    rewrite (call_unfold torchaudio_info torchaudio_load librosa_resample self
               file so ns src off num Ev Es Ew).
    destruct (Z.ltb_spec (original_total_num_samples src) (off + num)); [lia|].
    unfold read_window; rewrite Eo, El; reflexivity.
Qed.

(** X3. Nothing checks a rate against zero.  A reader whose target rate
    is 0 fails every read it gets as far as translating, with
    [ZeroDivisionError]; and an in-memory descriptor whose sample rate is
    0 passes validation and fails the length query the same way. *)
Theorem zero_rate_divides_by_zero :
  (forall (file : AudioFile A) (so : Z) (ns : option Z) (src : Source A),
      sample_rate self = 0 ->
      is_valid file = Ok true ->
      source_of torchaudio_info file = Ok src ->
      read file so ns = Raise ZeroDivisionError)
  /\ (forall (x : Tensor A) (c : option Z) (C T : nat),
        shape x = [C; T] -> (C <= T)%nat ->
        is_valid (in_memory x 0 c) = Ok true
        /\ get_num_samples torchaudio_info self (in_memory x 0 c)
           = Raise ZeroDivisionError).
Proof.
  split.
  - intros file so ns src E0 Ev Es.
    unfold __call__; rewrite Ev; simpl bind; rewrite Es; simpl bind.
    unfold native_window, Py.truediv; rewrite E0; reflexivity.
  - intros x c C T Hs Hle.
    pose proof (is_valid_in_memory x 0 c C T Hs Hle) as Ev.
    split; [exact Ev|].
    rewrite (get_num_samples_spec torchaudio_info self _ _ Ev
               (source_of_in_memory torchaudio_info x 0 c C T Hs)).
    reflexivity.
Qed.

Lemma native_window_whole_ratio (src : Source A) (m so : Z) :
  sample_rate self <> 0 ->
  original_sample_rate src = m * sample_rate self ->
  Z.abs (so * m) < 2 ^ 53 ->
  native_window self src so None
  = Ok (so * m, original_total_num_samples src - so * m)
  /\ forall n, Z.abs (n * m) < 2 ^ 53 ->
               native_window self src so (Some n) = Ok (so * m, n * m).
Proof.
  intros Hsr Hm Hso.
  assert (Eo : Spec.to_native_offset so (original_sample_rate src) (sample_rate self)
               = Ok (so * m))
    by (apply rounded_quotient_exact; [exact Hsr | rewrite Hm; ring | exact Hso]).
  split.
  - apply native_window_spec; split; [exact Eo | reflexivity].
  - intros n Hn; apply native_window_spec; split; [exact Eo|].
    apply rounded_quotient_exact; [exact Hsr | rewrite Hm; ring | exact Hn].
Qed.

(** X4. When the native rate is a whole multiple [m] of the target rate,
    the same rate included, the window is translated exactly: to offset
    [m * sample_offset] and length [m * num_samples] (as long as these
    are below 2^53, where a float holds every integer). *)
Theorem whole_ratio_window (src : Source A) (m so : Z) :
  sample_rate self <> 0 ->
  original_sample_rate src = m * sample_rate self ->
  Z.abs (so * m) < 2 ^ 53 ->
  native_window self src so None
  = Ok (so * m, original_total_num_samples src - so * m)
  /\ forall n, Z.abs (n * m) < 2 ^ 53 ->
               native_window self src so (Some n) = Ok (so * m, n * m).
Proof. exact (native_window_whole_ratio src m so). Qed.

(** X11. When the target rate is a whole multiple [m] of the native
    rate, the same rate included, the projected length is the integer
    [m * native_total_samples], held exactly by the float returned. *)
Theorem get_num_samples_whole_ratio (file : AudioFile A) (src : Source A) (m : Z) :
  is_valid file = Ok true ->
  source_of torchaudio_info file = Ok src ->
  original_sample_rate src <> 0 ->
  sample_rate self = m * original_sample_rate src ->
  Z.abs (original_total_num_samples src * m) < 2 ^ 53 ->
  exists q : Py.float,
    get_num_samples torchaudio_info self file = Ok q
    /\ Py.round q = Ok (original_total_num_samples src * m)
    /\ Py.is_integer q = true.
Proof.
  intros Ev Es Hr Hm Hb.
  rewrite (get_num_samples_spec torchaudio_info self file src Ev Es).
  unfold Spec.project_length.
  replace (original_total_num_samples src * sample_rate self)
    with (original_total_num_samples src * m * original_sample_rate src)
    by (rewrite Hm; ring).
  apply truediv_exact; assumption.
Qed.

(** ** The samples of a window *)

Lemma read_plain (x : Tensor A) (r so : Z) (ns : option Z) (C T : nat) (num : Z) :
  shape x = [C; T] -> (C <= T)%nat -> r <> 0 -> sample_rate self = r ->
  mono self = false \/ (C <= 1)%nat ->
  Z.abs so < 2 ^ 53 ->
  match ns with
  | Some n => num = n /\ Z.abs n < 2 ^ 53
  | None => num = Z.of_nat T - so
  end ->
  so + num <= Z.of_nat T ->
  read (in_memory x r None) so ns = slice_time x so (so + num).
Proof.
  intros Hs Hle Hr Er Hm Hso Hns Hfit.
  set (src := mkSource (Some x) "" r (Z.of_nat T) None).
  assert (Hratio : original_sample_rate src = 1 * sample_rate self)
    by (unfold src; cbn [original_sample_rate]; lia).
  destruct (native_window_whole_ratio src 1 so ltac:(congruence) Hratio ltac:(lia))
    as [Wnone Wsome].
  assert (Ew : native_window self src so ns = Ok (so, num)).
  { destruct ns as [n|].
    - destruct Hns as [-> Hn]; rewrite (Wsome n) by lia.
      f_equal; f_equal; lia.
    - rewrite Wnone, Hns; simpl; f_equal; f_equal; lia. }
  rewrite (call_unfold torchaudio_info torchaudio_load librosa_resample self
             _ so ns src so num
             (is_valid_in_memory x r None C T Hs Hle)
             (source_of_in_memory torchaudio_info x r None C T Hs) Ew).
  simpl original_total_num_samples.
  destruct (Z.ltb_spec (Z.of_nat T) (so + num)); [lia|].
  unfold read_window; simpl.
  destruct (slice_time x so (so + num)) as [d|e] eqn:Ed; simpl bind; [|reflexivity].
  rewrite (finish_same_rate librosa_resample self d r Er).
  destruct (slice_time_shape x d so (so + num) Ed) as (d0 & d1 & n & rest & Hx & Hd & _).
  rewrite Hs in Hx; injection Hx as <- <- <-.
  destruct Hm as [Hm|Hm].
  - apply downmix_mono_off, Hm.
  - apply (downmix_single self d C [n] Hd Hm).
Qed.

(** X5. At the native rate, without mono downmix or channel selection,
    the read of [num_samples] samples from [sample_offset], within the
    buffer, returns exactly those samples of every channel: a
    [(C, num_samples)] buffer whose entry [(c, t)] is entry
    [(c, sample_offset + t)] of the source. *)
Theorem read_returns_requested_samples
        (x : Tensor A) (r so n : Z) (C T : nat) :
  wf x -> shape x = [C; T] -> (C <= T)%nat -> r <> 0 -> sample_rate self = r ->
  mono self = false \/ (C <= 1)%nat ->
  0 <= so -> 0 <= n -> so + n <= Z.of_nat T -> Z.of_nat T < 2 ^ 53 ->
  exists out : Tensor A,
    read (in_memory x r None) so (Some n) = Ok out
    /\ shape out = [C; Z.to_nat n]
    /\ wf out
    /\ forall c t : nat, (c < C)%nat -> (t < Z.to_nat n)%nat ->
                         item2 out c t = item2 x c (Z.to_nat so + t).
Proof.
  intros W Hs Hle Hr Er Hm Hso Hn Hfit HT.
  rewrite (read_plain x r so (Some n) C T n Hs Hle Hr Er Hm) by (try split; lia).
  apply (slice_time_content x C T so (so + n) (Z.to_nat so) (Z.to_nat n) W Hs).
  rewrite slice_indices_inside by lia; f_equal; lia.
Qed.

(** A read from memory at the native rate: the window, the selection
    and the downmix, whatever the selector and [mono]. *)
Lemma read_equal_rate (x : Tensor A) (r so : Z) (ns chan : option Z) (C T : nat)
      (num : Z) :
  shape x = [C; T] -> (C <= T)%nat -> r <> 0 -> sample_rate self = r ->
  Z.abs so < 2 ^ 53 ->
  match ns with
  | Some n => num = n /\ Z.abs n < 2 ^ 53
  | None => num = Z.of_nat T - so
  end ->
  so + num <= Z.of_nat T ->
  read (in_memory x r chan) so ns
  = (d <- slice_time x so (so + num) ;;
     d' <- select_channel chan d ;;
     downmix self d').
Proof.
  intros Hs Hle Hr Er Hso Hns Hfit.
  set (src := mkSource (Some x) "" r (Z.of_nat T) chan).
  assert (Hratio : original_sample_rate src = 1 * sample_rate self)
    by (unfold src; cbn [original_sample_rate]; lia).
  destruct (native_window_whole_ratio src 1 so ltac:(congruence) Hratio ltac:(lia))
    as [Wnone Wsome].
  assert (Ew : native_window self src so ns = Ok (so, num)).
  { destruct ns as [n|].
    - destruct Hns as [-> Hn]; rewrite (Wsome n) by lia.
      f_equal; f_equal; lia.
    - rewrite Wnone, Hns; simpl; f_equal; f_equal; lia. }
  rewrite (call_unfold torchaudio_info torchaudio_load librosa_resample self
             _ so ns src so num
             (is_valid_in_memory x r chan C T Hs Hle)
             (source_of_in_memory torchaudio_info x r chan C T Hs) Ew).
  simpl original_total_num_samples.
  destruct (Z.ltb_spec (Z.of_nat T) (so + num)); [lia|].
  unfold read_window; simpl original_samples; cbv iota.
  destruct (slice_time x so (so + num)) as [d|e]; simpl bind; [|reflexivity].
  simpl channel.
  destruct (select_channel chan d) as [d'|e]; simpl bind; [|reflexivity].
  apply (finish_same_rate librosa_resample self d' r Er).
Qed.

(** X6. A negative offset is not refused: it is taken from the end, as a
    Python slice takes it.  At the native rate the read from offset
    [-k], for [0 < k <= T], without [num_samples] has for its window the
    last [k] samples of every channel; it returns the channel selection
    and the mono downmix of that window, and the window itself when
    there is no selector and nothing to downmix. *)
Theorem negative_offset_reads_the_tail
        (x : Tensor A) (r k : Z) (chan : option Z) (C T : nat) :
  wf x -> shape x = [C; T] -> (C <= T)%nat -> r <> 0 -> sample_rate self = r ->
  0 < k <= Z.of_nat T -> Z.of_nat T < 2 ^ 53 ->
  exists tail : Tensor A,
    shape tail = [C; Z.to_nat k]
    /\ wf tail
    /\ (forall c t : nat, (c < C)%nat -> (t < Z.to_nat k)%nat ->
                          item2 tail c t = item2 x c (T - Z.to_nat k + t))
    /\ read (in_memory x r chan) (- k) None
       = (d <- select_channel chan tail ;; downmix self d)
    /\ (chan = None -> mono self = false \/ (C <= 1)%nat ->
        read (in_memory x r chan) (- k) None = Ok tail).
Proof.
  intros W Hs Hle Hr Er Hk HT.
  destruct (slice_time_content x C T (- k) (- k + (Z.of_nat T - - k))
              (T - Z.to_nat k) (Z.to_nat k) W Hs)
    as (tail & Etail & Hst & Wt & Hitem).
  { unfold Py.slice_indices, Py.slice_bound.
    destruct (Z.ltb_spec (- k) 0); [|lia].
    destruct (Z.ltb_spec (- k + (Z.of_nat T - - k)) 0); [lia|].
    f_equal; lia. }
  assert (Eread : read (in_memory x r chan) (- k) None
                  = (d <- select_channel chan tail ;; downmix self d)).
  { rewrite (read_equal_rate x r (- k) None chan C T (Z.of_nat T - - k) Hs Hle Hr Er)
      by lia.
    rewrite Etail; reflexivity. }
  exists tail; repeat (split; [assumption|]).
  intros -> Hm; rewrite Eread; simpl.
  destruct Hm as [Hm|Hm].
  - apply downmix_mono_off, Hm.
  - apply (downmix_single self tail C [Z.to_nat k] Hst Hm).
Qed.

(** ** Channel selectors below 1 *)

(** X7. A channel selector is counted from 1 and never checked.  The
    selector 0, which the module's documentation gives as its example,
    selects no channel: at the native rate the read returns a
    [(0, length)] buffer.  A negative selector [c] above [-C] selects
    the channel of index [C + c - 1], and one at or below [-C] none. *)
Theorem channel_below_one :
  (forall (d : Tensor A) (C n : nat) (c : Z),
      shape d = [C; n] ->
      (c = 0 \/ c <= - Z.of_nat C ->
       select_channel (Some c) d = Ok (mkTensor [0%nat; n] []))
      /\ (- Z.of_nat C < c < 0 ->
          select_channel (Some c) d
          = Ok (mkTensor [1%nat; n] (chunk n (Z.to_nat (Z.of_nat C + c - 1)) (data d)))))
  /\ (forall (file : AudioFile A) (so : Z) (ns : option Z) (src : Source A)
             (off num : Z) (d : Tensor A) (C n : nat),
        is_valid file = Ok true ->
        source_of torchaudio_info file = Ok src ->
        native_window self src so ns = Ok (off, num) ->
        off + num <= original_total_num_samples src ->
        read_window torchaudio_load src off num = Ok d ->
        shape d = [C; n] ->
        channel src = Some 0 ->
        sample_rate self = original_sample_rate src ->
        read file so ns = Ok (mkTensor [0%nat; n] [])).
Proof.
  split.
  - intros d C n c Hs; split.
    + intros Hc; apply (select_channel_none d C n c Hs Hc).
    + intros Hc; apply (select_channel_from_end d C n c Hs Hc).
  - intros file so ns src off num d C n Ev Es Ew Hfit Ed Hs Ec Er.
    rewrite (call_after_window torchaudio_info torchaudio_load librosa_resample self
               file so ns src off num d Ev Es Ew Hfit Ed), Ec.
    rewrite (select_channel_none d C n 0 Hs (or_introl eq_refl)); simpl bind.
    apply finish_no_channel, Er.
Qed.

(** ** Mono *)

Lemma resample_mono_shape (x out : Tensor A) (C n : nat) (r : Z) :
  flat_to_flat librosa_resample ->
  mono self = true -> shape x = [C; n] -> (C <= 1)%nat ->
  resample librosa_resample self x r = Ok out ->
  exists n', shape out = [C; n'].
Proof.
  intros Hflat Em Hs HC; unfold resample; rewrite Em.
  destruct (Z.eqb_spec (sample_rate self) r) as [Er|Er]; simpl negb; cbv iota.
  - intros [= <-]; exists n; exact Hs.
  - unfold index0; rewrite Hs.
    destruct C as [|C]; [discriminate|]; simpl bind.
    intros E; apply bind_Ok in E; destruct E as (y & Ey & E).
    injection E as <-.
    destruct (Hflat _ _ _ _ n Ey eq_refl) as (n' & Hy).
    exists n'; unfold newaxis; simpl; rewrite Hy.
    f_equal; lia.
Qed.

(** X8. With [mono] set, every buffer a successful read returns has at
    most one channel, and exactly one when the source has a channel and
    the selector, if any, names one (given a decoder that returns 2-D
    buffers and a resampler that returns a flat sequence for a flat
    sequence). *)
Theorem mono_read_has_one_channel
        (file : AudioFile A) (so : Z) (ns : option Z) (out : Tensor A) :
  decodes_2d torchaudio_load ->
  flat_to_flat librosa_resample ->
  mono self = true ->
  read file so ns = Ok out ->
  exists (src : Source A) (off num : Z) (d : Tensor A) (C n C' n' : nat),
    source_of torchaudio_info file = Ok src
    /\ read_window torchaudio_load src off num = Ok d
    /\ shape d = [C; n]
    /\ shape out = [C'; n']
    /\ (C' <= 1)%nat
    /\ (names_a_channel (channel src) C -> C' = 1%nat).
Proof.
  intros Hload Hres Em E.
  apply call_Ok_inv in E.
  destruct E as (src & off & num & d & d1 & Ev & Es & Ew & _ & Ed & Ed1 & E).
  destruct (read_window_shape torchaudio_info torchaudio_load file src off num d
              Hload Ev Es Ed) as (C & n & Hs).
  destruct (select_channel_shape (channel src) d d1 C n Hs Ed1) as (C1 & Hs1 & Hc1 & _).
  unfold downmix_and_resample in E.
  apply bind_Ok in E; destruct E as (d2 & Ed2 & E).
  destruct (downmix_shape self d1 d2 C1 n Hs1 Ed2) as (C2 & Hs2 & Hc2 & Hm2 & _).
  specialize (Hm2 Em).
  destruct (resample_mono_shape d2 out C2 n _ Hres Em Hs2 Hm2 E) as (n' & Hout).
  exists src, off, num, d, C, n, C2, n'.
  repeat split; auto.
  intros Hc; specialize (Hc2 (Hc1 Hc)); lia.
Qed.

(** X12. A selected channel is never averaged: when the selector names
    a channel of the source and no resampling is due, the read returns
    the same buffer with [mono] set as without. *)
Theorem mono_is_idle_on_a_selected_channel
        (file : AudioFile A) (so : Z) (ns : option Z) (src : Source A)
        (off num c : Z) (d : Tensor A) (C n : nat) :
  is_valid file = Ok true ->
  source_of torchaudio_info file = Ok src ->
  native_window self src so ns = Ok (off, num) ->
  off + num <= original_total_num_samples src ->
  read_window torchaudio_load src off num = Ok d ->
  shape d = [C; n] ->
  channel src = Some c -> 1 <= c <= Z.of_nat C ->
  sample_rate self = original_sample_rate src ->
  read file so ns = Ok (mkTensor [1%nat; n] (chunk n (Z.to_nat (c - 1)) (data d)))
  /\ __call__ torchaudio_info torchaudio_load librosa_resample
       (mkAudio (sample_rate self) (negb (mono self))) file so ns
     = read file so ns.
Proof.
  intros Ev Es Ew Hfit Ed Hs Ec Hc Er.
  assert (Hone : forall a : Audio,
            sample_rate a = sample_rate self ->
            __call__ torchaudio_info torchaudio_load librosa_resample a file so ns
            = Ok (mkTensor [1%nat; n] (chunk n (Z.to_nat (c - 1)) (data d)))).
  { intros a Ea.
    assert (Ewa : native_window a src so ns = Ok (off, num))
      by (unfold native_window in *; rewrite Ea; exact Ew).
    rewrite (call_after_window torchaudio_info torchaudio_load librosa_resample a
               file so ns src off num d Ev Es Ewa Hfit Ed), Ec.
    rewrite (select_channel_named d C n c Hs Hc); simpl bind.
    rewrite (finish_same_rate librosa_resample a _ _ (eq_trans Ea Er)).
    apply (downmix_single a (mkTensor [1%nat; n] (chunk n (Z.to_nat (c - 1)) (data d)))
             1 [n] eq_refl); lia. }
  split.
  - apply Hone; reflexivity.
  - rewrite (Hone self eq_refl); apply Hone; reflexivity.
Qed.

End Collaboration.

(** ** There and back through the resampler's layout *)

Section RoundTrip.

Context {A : Type} `{SampleOps A}.

Lemma transpose_transpose (x : Tensor A) (C T : nat) :
  wf x -> shape x = [C; T] -> transpose (transpose x) = x.
Proof.
  unfold wf; intros W Hs; rewrite Hs in W; simpl in W; rewrite Nat.mul_1_r in W.
  assert (Hq : shape (transpose x) = [T; C])
    by (rewrite (transpose_2d x C T Hs); reflexivity).
  assert (Lq : length (data (transpose x)) = (T * C)%nat).
  { rewrite (transpose_2d x C T Hs); simpl data.
    apply length_flat_map_uniform, transpose_uniform, W. }
  assert (Lqq : length (data (transpose (transpose x))) = (C * T)%nat).
  { rewrite (transpose_2d (transpose x) T C Hq); simpl data.
    apply length_flat_map_uniform, transpose_uniform, Lq. }
  assert (Hqq : shape (transpose (transpose x)) = [C; T])
    by (rewrite (transpose_2d (transpose x) T C Hq); reflexivity).
  destruct x as [shp dat]; simpl in Hs, W; subst shp.
  destruct (transpose (transpose _)) as [shp' dat'] eqn:E; simpl in Hqq, Lqq.
  subst shp'; f_equal.
  apply nth_error_ext; intros k.
  destruct (Nat.lt_ge_cases k (C * T)) as [Hk|Hk].
  - assert (HT : T <> 0%nat) by (intros ->; lia).
    pose proof (Nat.div_mod_eq k T) as Ek.
    pose proof (Nat.mod_upper_bound k T HT) as Ht.
    assert (Hc : (k / T < C)%nat)
      by (apply Nat.Div0.div_lt_upper_bound; lia).
    replace k with (k / T * T + k mod T)%nat at 1 2 by lia.
    change dat' with (data (mkTensor [C; T] dat')); rewrite <- E.
    rewrite (nth_error_transpose_2d (transpose _) T C (k mod T) (k / T) Lq Hq Ht Hc).
    apply (nth_error_transpose_2d (mkTensor [C; T] dat) C T (k / T) (k mod T) W eq_refl Hc Ht).
  - transitivity (@None A); [|symmetry]; apply nth_error_None; lia.
Qed.

Variable librosa_resample : Tensor A -> Z -> Z -> result (Tensor A).
Variable self : Audio.

(** X9. Without [mono] the resampler is handed the buffer in (time,
    channel) layout and what it returns is turned back: the two
    transpositions undo each other, so a resampler that returns what it
    is given leaves a buffer as it was, and in general the result is the
    transposed answer of the resampler to the transposed buffer. *)
Theorem transposed_and_back (x : Tensor A) (C T : nat) (r : Z) :
  wf x -> shape x = [C; T] ->
  mono self = false -> sample_rate self <> r ->
  transpose (transpose x) = x
  /\ (forall y, librosa_resample (transpose x) r (sample_rate self) = Ok y ->
                downmix_and_resample librosa_resample self x r = Ok (transpose y))
  /\ (librosa_resample (transpose x) r (sample_rate self) = Ok (transpose x) ->
      downmix_and_resample librosa_resample self x r = Ok x).
Proof.
  intros W Hs Em Hr.
  pose proof (transpose_transpose x C T W Hs) as Ett.
  assert (Hfin : forall y, librosa_resample (transpose x) r (sample_rate self) = Ok y ->
                 downmix_and_resample librosa_resample self x r = Ok (transpose y)).
  { intros y Ey; unfold downmix_and_resample, downmix, resample.
    rewrite Em; simpl bind.
    destruct (Z.eqb_spec (sample_rate self) r) as [|_]; [contradiction|].
    simpl negb; cbv iota; rewrite Ey; reflexivity. }
  split; [exact Ett|]; split; [exact Hfin|].
  intros Ey; rewrite (Hfin _ Ey), Ett; reflexivity.
Qed.

End RoundTrip.

(** ** The further properties at work *)

(** X1, at work: the stereo buffer read with the disk and without it. *)
Lemma in_memory_read_needs_no_file_witness :
  Example.read (mkAudio 2 false) (in_memory Example.stereo 2 (Some 2)) 1 None
  = __call__ (H := Float32.ops)
      (fun _ => Raise (CollaboratorError 7)) (fun _ _ _ => Raise (CollaboratorError 8))
      Stub.resample (mkAudio 2 false) (in_memory Example.stereo 2 (Some 2)) 1 None.
Proof.
  exact (proj1 (in_memory_read_needs_no_file (H := Float32.ops)
                  Example.info Example.load Stub.resample (mkAudio 2 false)
                  (fun _ => Raise (CollaboratorError 7))
                  (fun _ _ _ => Raise (CollaboratorError 8))
                  (mkFileDict (Some Example.stereo) (Some 2) None (Some 2))
                  Example.stereo 1 None eq_refl)).
Defined.

(** X2 and X3, at work: a file the disk does not hold, and a reader at
    0 Hz. *)
Example read_failures :
  Example.read (mkAudio 2 true) (PathFile "missing.wav") 0 None
  = Raise (CollaboratorError 0)
  /\ Example.read (mkAudio 0 true) (PathFile "stereo.wav") 0 None
     = Raise ZeroDivisionError
  /\ get_num_samples Example.info (mkAudio 2 true) (in_memory Example.stereo 0 None)
     = Raise ZeroDivisionError.
Proof. repeat split; vm_compute; reflexivity. Qed.

(** X4, at work: a tenth of a second from offset 100 at 16 kHz, in a
    source at 48 kHz. *)
Lemma whole_ratio_window_witness :
  native_window (A := spec_float) (mkAudio 16000 true)
    (mkSource None "a.wav" 48000 480000 None) 100 (Some 1600)
  = Ok (300, 4800).
Proof.
  assert (Hsr : sample_rate (mkAudio 16000 true) <> 0) by discriminate.
  assert (Hso : Z.abs (100 * 3) < 2 ^ 53) by (vm_compute; reflexivity).
  assert (Hn : Z.abs (1600 * 3) < 2 ^ 53) by (vm_compute; reflexivity).
  exact (proj2 (whole_ratio_window (mkAudio 16000 true)
                  (mkSource None "a.wav" 48000 480000 None) 3 100 Hsr eq_refl Hso)
           1600 Hn).
Defined.

(** X11, at work: the 3 samples of the file at 2 Hz are 6 at 4 Hz. *)
Lemma get_num_samples_whole_ratio_witness :
  exists q : Py.float,
    get_num_samples (A := spec_float) Example.info (mkAudio 4 true)
      (PathFile "stereo.wav") = Ok q
    /\ Py.round q = Ok 6 /\ Py.is_integer q = true.
Proof.
  assert (Hr : (2 : Z) <> 0) by discriminate.
  assert (Hb : Z.abs (3 * 2) < 2 ^ 53) by (vm_compute; reflexivity).
  exact (get_num_samples_whole_ratio (A := spec_float) Example.info (mkAudio 4 true)
           (PathFile "stereo.wav") (mkSource None "stereo.wav" 2 3 None) 2
           eq_refl eq_refl Hr eq_refl Hb).
Defined.

(** X5, at work: samples 1 and 2 of the stereo buffer. *)
Lemma read_returns_requested_samples_witness :
  exists out : Tensor spec_float,
    Example.read (mkAudio 2 false) (in_memory Example.stereo 2 None) 1 (Some 2) = Ok out
    /\ shape out = [2%nat; 2%nat]
    /\ item2 out 1 0 = item2 Example.stereo 1 1.
Proof.
  assert (Hr : (2 : Z) <> 0) by discriminate.
  assert (HT : Z.of_nat 3 < 2 ^ 53) by (vm_compute; reflexivity).
  destruct (read_returns_requested_samples (H := Float32.ops)
              Example.info Example.load Stub.resample (mkAudio 2 false)
              Example.stereo 2 1 2 2 3
              eq_refl eq_refl (le_S 2 2 (le_n 2)) Hr eq_refl (or_introl eq_refl)
              ltac:(lia) ltac:(lia) ltac:(simpl; lia) HT)
    as (out & Eout & Hs & _ & Hitem).
  exists out; split; [exact Eout|]; split; [exact Hs|].
  apply (Hitem 1%nat 0%nat); simpl; lia.
Defined.

(** X6, at work: the last sample of each channel, and read to mono. *)
Lemma negative_offset_reads_the_tail_witness :
  exists tail : Tensor spec_float,
    shape tail = [2%nat; 1%nat]
    /\ item2 tail 1 0 = item2 Example.stereo 1 2
    /\ Example.read (mkAudio 2 false) (in_memory Example.stereo 2 None) (- 1) None
       = Ok tail.
Proof.
  assert (Hr : (2 : Z) <> 0) by discriminate.
  assert (HT : Z.of_nat 3 < 2 ^ 53) by (vm_compute; reflexivity).
  destruct (negative_offset_reads_the_tail (H := Float32.ops)
              Example.info Example.load Stub.resample (mkAudio 2 false)
              Example.stereo 2 1 None 2 3
              eq_refl eq_refl (le_S 2 2 (le_n 2)) Hr eq_refl
              ltac:(simpl; lia) HT)
    as (tail & Hs & _ & Hitem & _ & Hplain).
  exists tail; split; [exact Hs|]; split.
  - apply (Hitem 1%nat 0%nat); simpl; lia.
  - apply Hplain; [reflexivity | left; reflexivity].
Defined.

(** With the default [mono], the same read returns the mean of the two
    last samples, 3 and 6. *)
Example read_negative_offset_mono :
  Example.read (mkAudio 2 true) (in_memory Example.stereo 2 None) (- 1) None
  = Ok (mkTensor [1%nat; 1%nat]
          [SFdiv Float32.prec Float32.emax (Float32.of_Z 9) (Float32.of_Z 2)]).
Proof. vm_compute; reflexivity. Qed.

(** X7, at work: the documentation's own selector. *)
Example read_channel_zero :
  Example.read (mkAudio 2 true) (path_in_dict "stereo.wav" (Some 0)) 0 None
  = Ok (mkTensor [0%nat; 3%nat] [])
  /\ Example.read (mkAudio 2 true) (in_memory Example.three_channels 2 (Some (- 1))) 0 None
     = Ok (Example.buffer 1 3 [4; 5; 6]).
Proof. split; vm_compute; reflexivity. Qed.

(** X8, at work: the file read to mono at its own rate. *)
Lemma mono_read_has_one_channel_witness :
  exists (out : Tensor spec_float) (n' : nat),
    Example.read (mkAudio 2 true) (PathFile "stereo.wav") 0 None = Ok out
    /\ shape out = [1%nat; n'].
Proof.
  assert (E : exists out, Example.read (mkAudio 2 true) (PathFile "stereo.wav") 0 None
                          = Ok out) by (eexists; vm_compute; reflexivity).
  destruct E as (out & E).
  destruct (mono_read_has_one_channel (H := Float32.ops)
              Example.info Example.load Stub.resample (mkAudio 2 true)
              (PathFile "stereo.wav") 0 None out
              stub_load_decodes_2d (stub_resample_flat_to_flat _) eq_refl E)
    as (src & off & num & d & C & n & C' & n' & Es & Ed & Hs & Hout & _ & Hone).
  exists out, n'; split; [exact E|].
  rewrite Hout; f_equal; apply Hone.
  injection Es as <-; simpl.
  unfold read_window in Ed; simpl in Ed.
  unfold Example.load, Stub.load, Example.disk in Ed; simpl in Ed.
  destruct (_ && _) in Ed; [|discriminate].
  apply slice_time_shape in Ed.
  destruct Ed as (d0 & d1 & k & rest & Hx & Hd' & _).
  injection Hx as <- <- <-; rewrite Hd' in Hs; injection Hs as <- _; lia.
Defined.

(** X12, at work: channel 2 of the three, with and without [mono]. *)
Lemma mono_is_idle_on_a_selected_channel_witness :
  Example.read (mkAudio 2 true) (in_memory Example.three_channels 2 (Some 2)) 0 None
  = Example.read (mkAudio 2 false) (in_memory Example.three_channels 2 (Some 2)) 0 None.
Proof.
  assert (Hfit : 0 + 3 <= 3) by lia.
  assert (Hc : 1 <= 2 <= Z.of_nat 3) by (simpl; lia).
  exact (proj2 (mono_is_idle_on_a_selected_channel (H := Float32.ops)
                  Example.info Example.load Stub.resample (mkAudio 2 false)
                  (in_memory Example.three_channels 2 (Some 2)) 0 None
                  (mkSource (Some Example.three_channels) "" 2 3 (Some 2)) 0 3 2
                  Example.three_channels 3%nat 3%nat
                  eq_refl eq_refl eq_refl Hfit eq_refl eq_refl eq_refl Hc eq_refl)).
Defined.

(** X9, at work: the stand-in resampler returns the stereo buffer it is
    handed, and the buffer comes back as it was. *)
Lemma transposed_and_back_witness :
  downmix_and_resample (H := Float32.ops) Stub.resample (mkAudio 1 false) Example.stereo 2
  = Ok Example.stereo.
Proof.
  assert (Hr : sample_rate (mkAudio 1 false) <> 2) by discriminate.
  destruct (transposed_and_back (H := Float32.ops) Stub.resample (mkAudio 1 false)
              Example.stereo 2 3 2 eq_refl eq_refl eq_refl Hr) as (_ & _ & Hback).
  apply Hback; reflexivity.
Defined.
